(** * Rag-path: segmentation, chunk assembly, change matching,
      synchronization and ingestion

    A shallow embedding of [document_processor.py], [app.py] and
    [upload_handlers.py], followed by the properties of the indexing
    pipeline that were settled against it. *)

From Stdlib Require Import ZArith NArith List Lia Bool String Ascii.
From Stdlib.Strings Require Import Byte.
From stdpp Require Import base list strings gmap.

(** ** Python values *)

(** A Python [str] is a sequence of Unicode code points; [len], slicing,
    [rfind], [strip], [split] and [in] all work on that sequence. *)
Module Py.

Definition char := N.
Definition str := list char.
Definition bytes := list byte.

(** A literal of the source, read as Latin-1 code points. *)
Definition lit (s : string) : str :=
  map N_of_ascii (list_ascii_of_string s).

(** The line feed ['\n'], the carriage return ['\r'] and the double quote. *)
Definition LF : char := 10%N.
Definition CR : char := 13%N.
Definition DQUOTE : char := 34%N.

Definition len (s : str) : Z := Z.of_nat (length s).

(** Truth value of a [str]: non-empty. *)
Definition truthy (s : str) : bool :=
  match s with [] => false | _ :: _ => true end.

(** [str.isspace] on one code point (the table of [_PyUnicode_IsWhitespace]). *)
Definition isspace (c : char) : bool :=
  ((9 <=? c) && (c <=? 13) || (28 <=? c) && (c <=? 32)
   || (c =? 133) || (c =? 160) || (c =? 5760)
   || (8192 <=? c) && (c <=? 8202)
   || (c =? 8232) || (c =? 8233) || (c =? 8239) || (c =? 8287)
   || (c =? 12288))%N.

(** Index adjustment shared by slicing and by the [start]/[end] arguments
    of [rfind]: a negative index counts from the end, and the result is
    clamped to [0..n]. *)
Definition adjust (n i : Z) : Z :=
  if (i <? 0)%Z then Z.max 0 (i + n) else Z.min i n.

(** [s[start:stop]] *)
Definition slice (s : str) (start stop : Z) : str :=
  let lo := adjust (len s) start in
  let hi := adjust (len s) stop in
  take (Z.to_nat (hi - lo)) (drop (Z.to_nat lo) s).

(** [s.startswith(p)] *)
Fixpoint startswith (s p : str) : bool :=
  match p, s with
  | [], _ => true
  | c :: p', d :: s' => (c =? d)%N && startswith s' p'
  | _ :: _, [] => false
  end.

(** [s.endswith(p)] *)
Definition endswith (s p : str) : bool :=
  startswith (reverse s) (reverse p).

(** Highest [i] in [lo, lo + k) at which [sub] occurs in [s]. *)
Fixpoint rfind_from (sub s : str) (lo k : nat) : option nat :=
  match k with
  | O => None
  | S k' =>
      if startswith (drop (lo + k') s) sub then Some (lo + k')
      else rfind_from sub s lo k'
  end.

(** [s.rfind(sub, start, stop)]: the highest index [i] with
    [s[i:i+len(sub)] == sub] inside [s[start:stop]], or [-1]. *)
Definition rfind (s sub : str) (start stop : Z) : Z :=
  let lo := adjust (len s) start in
  let hi := adjust (len s) stop in
  if (lo + len sub <=? hi)%Z then
    match rfind_from sub s (Z.to_nat lo) (Z.to_nat (hi - len sub + 1 - lo)) with
    | Some i => Z.of_nat i
    | None => (-1)%Z
    end
  else (-1)%Z.

(** [sub in s] *)
Fixpoint contains (s sub : str) : bool :=
  startswith s sub ||
  match s with
  | [] => false
  | _ :: s' => contains s' sub
  end.

(** Stripping the code points that satisfy [p] from the left, from the
    right and from both ends. *)
Fixpoint lstrip_with (p : char -> bool) (s : str) : str :=
  match s with
  | [] => []
  | c :: s' => if p c then lstrip_with p s' else s
  end.

Definition rstrip_with (p : char -> bool) (s : str) : str :=
  reverse (lstrip_with p (reverse s)).

Definition strip_with (p : char -> bool) (s : str) : str :=
  rstrip_with p (lstrip_with p s).

(** A string whose first code point, if it has one, is kept by the strip. *)
Definition clean_head (p : char -> bool) (s : str) : Prop :=
  match s with [] => True | c :: _ => p c = false end.

(** [s.strip()] *)
Definition strip (s : str) : str := strip_with isspace s.

(** [s.strip(chars)] *)
Definition strip_chars (s chars : str) : str :=
  strip_with (fun c => existsb (N.eqb c) chars) s.

(** [s.split(sep)] for a non-empty [sep] (every separator of the source is
    a non-empty literal). [skip] counts the code points of a separator
    still to be passed over, [cur] is the piece being read, reversed. *)
Fixpoint split_go (sep : str) (skip : nat) (cur s : str) : list str :=
  match s with
  | [] => [reverse cur]
  | c :: s' =>
      match skip with
      | S k => split_go sep k cur s'
      | O =>
          if startswith s sep
          then reverse cur :: split_go sep (length sep - 1) [] s'
          else split_go sep 0 (c :: cur) s'
      end
  end.

Definition split (s sep : str) : list str := split_go sep 0 [] s.

(** [sep.join(parts)] *)
Fixpoint join (sep : str) (parts : list str) : str :=
  match parts with
  | [] => []
  | [p] => p
  | p :: rest => p ++ sep ++ join sep rest
  end.

(** [s.replace(old, new)] for a non-empty [old]. *)
Definition replace (s old new : str) : str := join new (split s old).

(** [s.lower()] on the ASCII letters, which is all the extensions the
    source compares against can contain; other code points are kept. *)
Definition lower_char (c : char) : char :=
  if ((65 <=? c) && (c <=? 90))%N then (c + 32)%N else c.

Definition lower (s : str) : str := map lower_char s.

(** Equality of two [str] values, [==]. *)
Definition str_eqb (a b : str) : bool := bool_decide (a = b).

(** *** Exceptions *)

(** The classes the source tells apart in its [except] clauses; every
    other subclass of [Exception] is an [OtherException]. *)
Inductive exn :=
| ImportError
| IndexError
| UnicodeDecodeError
| CalledProcessError (stderr : str)
| OtherException (what : string).

(** The outcome of a call: a value, or a raised exception. *)
Inductive result (A : Type) :=
| Return (a : A)
| Raise (e : exn).
Arguments Return {A} a.
Arguments Raise {A} e.

Definition bind {A B} (r : result A) (k : A -> result B) : result B :=
  match r with
  | Return a => k a
  | Raise e => Raise e
  end.

#[global] Instance result_ret : MRet result := @Return.
#[global] Instance result_fmap : FMap result :=
  fun A B f r => bind r (fun a => Return (f a)).
#[global] Instance result_bind : MBind result := fun A B k r => bind r k.

(** [try: body except Exception as e: handler(e)] *)
Definition try_except {A} (body : result A) (handler : exn -> result A)
  : result A :=
  match body with
  | Return a => Return a
  | Raise e => handler e
  end.

(** [xs[i]] on a list, with negative indices and [IndexError]. *)
Definition index {A} (xs : list A) (i : Z) : result A :=
  let n := Z.of_nat (length xs) in
  let j := if (i <? 0)%Z then (i + n)%Z else i in
  if ((0 <=? j) && (j <? n))%Z then
    match xs !! Z.to_nat j with
    | Some x => Return x
    | None => Raise IndexError
    end
  else Raise IndexError.

(** *** Decoding *)

Definition continuation (x : N) : bool := ((128 <=? x) && (x <=? 191))%N.

(** [b.decode('utf-8')]: strict UTF-8, shortest forms only, no
    surrogates, nothing above U+10FFFF; [None] is [UnicodeDecodeError]. *)
Fixpoint utf8 (bs : bytes) : option str :=
  match bs with
  | [] => Some []
  | b0 :: r0 =>
      let x0 := Byte.to_N b0 in
      if (x0 <? 128)%N then cons x0 <$> utf8 r0
      else if ((194 <=? x0) && (x0 <=? 223))%N then
        match r0 with
        | b1 :: r1 =>
            let x1 := Byte.to_N b1 in
            if continuation x1
            then cons ((x0 - 192) * 64 + (x1 - 128))%N <$> utf8 r1
            else None
        | _ => None
        end
      else if ((224 <=? x0) && (x0 <=? 239))%N then
        match r0 with
        | b1 :: b2 :: r2 =>
            let x1 := Byte.to_N b1 in
            let x2 := Byte.to_N b2 in
            let lo := if (x0 =? 224)%N then 160%N else 128%N in
            let hi := if (x0 =? 237)%N then 159%N else 191%N in
            if ((lo <=? x1) && (x1 <=? hi))%N && continuation x2
            then cons ((x0 - 224) * 4096 + (x1 - 128) * 64 + (x2 - 128))%N
                   <$> utf8 r2
            else None
        | _ => None
        end
      else if ((240 <=? x0) && (x0 <=? 244))%N then
        match r0 with
        | b1 :: b2 :: b3 :: r3 =>
            let x1 := Byte.to_N b1 in
            let x2 := Byte.to_N b2 in
            let x3 := Byte.to_N b3 in
            let lo := if (x0 =? 240)%N then 144%N else 128%N in
            let hi := if (x0 =? 244)%N then 143%N else 191%N in
            if ((lo <=? x1) && (x1 <=? hi))%N && continuation x2
               && continuation x3
            then cons ((x0 - 240) * 262144 + (x1 - 128) * 4096
                       + (x2 - 128) * 64 + (x3 - 128))%N <$> utf8 r3
            else None
        | _ => None
        end
      else None
  end.

Definition decode_utf8 (bs : bytes) : result str :=
  match utf8 bs with
  | Some s => Return s
  | None => Raise UnicodeDecodeError
  end.

(** What a file opened in text mode with the default [newline=None]
    hands to [read()]: every ['\r\n'] and every lone ['\r'] of the decoded
    text has become ['\n']. *)
Fixpoint universal_newlines (s : str) : str :=
  match s with
  | [] => []
  | c :: s' =>
      if (c =? CR)%N then
        LF :: match s' with
              | d :: s'' =>
                  if (d =? LF)%N then universal_newlines s''
                  else universal_newlines s'
              | [] => []
              end
      else c :: universal_newlines s'
  end.

End Py.

Import Py.


(** ** The libraries around the source *)

(** [pathlib.Path], carried as the string [str(path)] in pathlib's normal
    form (no trailing separator). *)
Module pathlib.

Definition Path := str.

(** [path.name]: the last component. *)
Definition name (p : Path) : str :=
  slice p (rfind p (lit "/") 0 (len p) + 1) (len p).

(** [path.suffix]: the last dot-suffix of the name, unless the dot leads
    or ends the name. *)
Definition suffix (p : Path) : str :=
  let name := name p in
  let i := rfind name (lit ".") 0 (len name) in
  if ((0 <? i) && (i <? len name - 1))%Z then slice name i (len name) else [].

(** [path / child] *)
Definition div (p : Path) (child : str) : Path :=
  if startswith child (lit "/") then child else p ++ lit "/" ++ child.

End pathlib.

(** What the file system answers. [read_bytes] is the content a successful
    [open] gives access to; it raises where [open] does. *)
Record FileSystem := {
  path_exists : pathlib.Path -> bool;
  is_file : pathlib.Path -> bool;
  rglob : pathlib.Path -> result (list pathlib.Path);
  read_bytes : pathlib.Path -> result bytes
}.

(** The extraction libraries, black boxes from content to text pieces. A
    library that is not installed is [None]: importing it raises
    [ImportError]. [pdfplumber] yields [page.extract_text()] per page
    ([None] for a page without text), [PyPDF2] the same as strings,
    [docx] the paragraphs' texts, [pptx] per slide the [text] of each
    shape ([None] for a shape without that attribute). *)
Record Backends := {
  pdfplumber : option (bytes -> result (list (option str)));
  PyPDF2 : option (bytes -> result (list str));
  docx : option (bytes -> result (list str));
  pptx : option (bytes -> result (list (list (option str))))
}.

Definition import {A} (module : option A) : result A :=
  match module with
  | Some m => Return m
  | None => Raise ImportError
  end.

(** ** document_processor.py *)

Module document_processor.

Import pathlib.

(** A metadata value: the source stores strings and integers. *)
Inductive value :=
| VStr (s : str)
| VInt (n : Z).

(** Lines 14-20 *)
Record Document := {
  content : str;
  source : str;
  chunk_id : Z;
  metadata : gmap string value
}.

(** Lines 26-37 *)
Record DocumentProcessor := {
  chunk_size : Z;
  chunk_overlap : Z;
  supported_extensions : gset str
}.

(** [DocumentProcessor(chunk_size, chunk_overlap)] *)
Definition new (chunk_size chunk_overlap : Z) : DocumentProcessor :=
  {| chunk_size := chunk_size;
     chunk_overlap := chunk_overlap;
     supported_extensions :=
       list_to_set
         (lit <$> [".md"; ".txt"; ".py"; ".js"; ".json"; ".yaml"; ".yml";
                   ".pdf"; ".docx"; ".pptx"; ".html"; ".csv"]%string) |}.

(** [DocumentProcessor()] *)
Definition default_processor : DocumentProcessor := new 1000 200.

(** *** The segmenter, lines 282-324 *)

Section split_text.
Local Open Scope Z_scope.
Variable self : DocumentProcessor.
Variable text : str.

(** Lines 299-316: the cut point chosen for the window that begins at
    [start]. *)
Definition cut_point (start : Z) : Z :=
  let end_ := start + chunk_size self in
  if end_ <? len text then
    let last_double_newline := rfind text [LF; LF] start end_ in
    if last_double_newline >? start then last_double_newline
    else
      let last_period := rfind text (lit ". ") start end_ in
      if last_period >? start then last_period + 1
      else
        let last_space := rfind text (lit " ") start end_ in
        if last_space >? start then last_space else end_
  else end_.

(** Line 318: [text[start:end].strip()] *)
Definition chunk_at (start : Z) : str :=
  strip (slice text start (cut_point start)).

(** Line 322 *)
Definition next_start (start : Z) : Z :=
  let end_ := cut_point start in
  if end_ <? len text then end_ - chunk_overlap self else end_.

(** Lines 298-322: the [while] loop, with [fuel] bounding the number of
    iterations; [None] means the bound was reached with the loop still
    running. *)
Fixpoint split_loop (fuel : nat) (start : Z) (chunks : list str)
  : option (list str) :=
  if start <? len text then
    match fuel with
    | O => None
    | S fuel' =>
        let chunk := chunk_at start in
        let chunks' := if truthy chunk then chunks ++ [chunk] else chunks in
        split_loop fuel' (next_start start) chunks'
    end
  else Some chunks.

(** Lines 292-324 *)
Definition split_text (fuel : nat) : option (list str) :=
  if len text <=? chunk_size self then Some [text]
  else split_loop fuel 0 [].

(** The values [start] has at the head of the first [fuel] iterations. *)
Fixpoint loop_starts (fuel : nat) (start : Z) : list Z :=
  match fuel with
  | O => []
  | S fuel' =>
      if start <? len text then start :: loop_starts fuel' (next_start start)
      else []
  end.

(** The offsets the loop can reach when [0 <= chunk_size] and
    [chunk_overlap < chunk_size]: an offset below zero is at most one
    overlap and one position before the origin. *)
Definition start_ok (start : Z) : Prop :=
  0 <= start \/ -1 - chunk_overlap self <= start.

End split_text.

(** *** The extractor, lines 150-280 *)

Section extract.
Variable fs : FileSystem.
Variable lib : Backends.

(** The page loop of lines 191-194 and 215-218. *)
Definition pdfplumber_text (pages : list (option str)) : str :=
  foldl (fun text page_text =>
           match page_text with
           | Some t => if truthy t then text ++ t ++ [LF] else text
           | None => text
           end) [] pages.

(** The page loop of lines 202-203 and 225-226. *)
Definition PyPDF2_text (pages : list str) : str :=
  foldl (fun text page_text => text ++ page_text ++ [LF]) [] pages.

(** The slide loop of lines 258-261 and 273-276. *)
Definition pptx_text (slides : list (list (option str))) : str :=
  foldl (fun text shapes =>
           foldl (fun text shape =>
                    match shape with
                    | Some t => text ++ t ++ [LF]
                    | None => text
                    end) text shapes) [] slides.

(** Lines 209-230 *)
Definition _extract_pdf_from_bytes (file_bytes : bytes) : result str :=
  match
    bind (import (pdfplumber lib)) (fun open =>
    bind (open file_bytes) (fun pages =>
    Return (pdfplumber_text pages)))
  with
  | Raise ImportError =>
      try_except
        (bind (import (PyPDF2 lib)) (fun PdfReader =>
         bind (PdfReader file_bytes) (fun pages =>
         Return (PyPDF2_text pages))))
        (fun _ => Return [])
  | r => r
  end.

(** Lines 185-207: the same, with the library opening the file itself. *)
Definition _extract_pdf (file_path : Path) : result str :=
  match
    bind (import (pdfplumber lib)) (fun open =>
    bind (read_bytes fs file_path) (fun data =>
    bind (open data) (fun pages =>
    Return (pdfplumber_text pages))))
  with
  | Raise ImportError =>
      try_except
        (bind (import (PyPDF2 lib)) (fun PdfReader =>
         bind (read_bytes fs file_path) (fun data =>
         bind (PdfReader data) (fun pages =>
         Return (PyPDF2_text pages)))))
        (fun _ => Return [])
  | r => r
  end.

(** Lines 242-250 *)
Definition _extract_docx_from_bytes (file_bytes : bytes) : result str :=
  try_except
    (bind (import (docx lib)) (fun DocxDocument =>
     bind (DocxDocument file_bytes) (fun paragraphs =>
     Return (join [LF] paragraphs))))
    (fun _ => Return []).

(** Lines 232-240 *)
Definition _extract_docx (file_path : Path) : result str :=
  try_except
    (bind (import (docx lib)) (fun DocxDocument =>
     bind (read_bytes fs file_path) (fun data =>
     bind (DocxDocument data) (fun paragraphs =>
     Return (join [LF] paragraphs)))))
    (fun _ => Return []).

(** Lines 267-280 *)
Definition _extract_pptx_from_bytes (file_bytes : bytes) : result str :=
  try_except
    (bind (import (pptx lib)) (fun Presentation =>
     bind (Presentation file_bytes) (fun slides =>
     Return (pptx_text slides))))
    (fun _ => Return []).

(** Lines 252-265 *)
Definition _extract_pptx (file_path : Path) : result str :=
  try_except
    (bind (import (pptx lib)) (fun Presentation =>
     bind (read_bytes fs file_path) (fun data =>
     bind (Presentation data) (fun slides =>
     Return (pptx_text slides)))))
    (fun _ => Return []).

(** The [except Exception] of lines 165-167 and 181-183: log, answer [""]. *)
Definition or_empty (r : result str) : str :=
  match r with
  | Return s => s
  | Raise _ => []
  end.

(** Lines 150-167 *)
Definition _extract_content (file_path : Path) : str :=
  let file_ext := lower (suffix file_path) in
  or_empty
    (if str_eqb file_ext (lit ".pdf") then _extract_pdf file_path
     else if str_eqb file_ext (lit ".docx") then _extract_docx file_path
     else if str_eqb file_ext (lit ".pptx") then _extract_pptx file_path
     else
       bind (read_bytes fs file_path) (fun data =>
       bind (decode_utf8 data) (fun decoded =>
       Return (universal_newlines decoded)))).

(** Lines 169-183 *)
Definition _extract_content_from_bytes
  (file_bytes : bytes) (file_ext : str) (filename : str) : str :=
  or_empty
    (if str_eqb file_ext (lit ".pdf") then _extract_pdf_from_bytes file_bytes
     else if str_eqb file_ext (lit ".docx")
          then _extract_docx_from_bytes file_bytes
     else if str_eqb file_ext (lit ".pptx")
          then _extract_pptx_from_bytes file_bytes
     else decode_utf8 file_bytes).

End extract.

(** *** The chunk assembler, lines 66-148 *)

Section load.
Variable fs : FileSystem.
Variable lib : Backends.
Variable self : DocumentProcessor.

(** Lines 86-99: [enumerate(chunks)] wrapped into [Document]s. *)
Definition documents_of_path (file_path : Path) (chunks : list str)
  : list Document :=
  imap (fun idx chunk =>
          {| content := chunk;
             source := file_path;
             chunk_id := Z.of_nat idx;
             metadata :=
               {[ "file_name"%string := VStr (name file_path);
                  "file_type"%string := VStr (suffix file_path);
                  "chunk_index"%string := VInt (Z.of_nat idx);
                  "total_chunks"%string := VInt (Z.of_nat (length chunks)) ]} |})
       chunks.

(** Lines 128-142: the same for an upload. *)
Definition documents_of_upload (filename file_ext : str) (chunks : list str)
  : list Document :=
  imap (fun idx chunk =>
          {| content := chunk;
             source := filename;
             chunk_id := Z.of_nat idx;
             metadata :=
               {[ "file_name"%string := VStr filename;
                  "file_type"%string := VStr file_ext;
                  "chunk_index"%string := VInt (Z.of_nat idx);
                  "total_chunks"%string := VInt (Z.of_nat (length chunks));
                  "upload_type"%string := VStr (lit "direct_upload") ]} |})
       chunks.

(** What a batch of one source has to satisfy: the document at position
    [i] has [chunk_id] and [chunk_index] equal to [i], and [total_chunks]
    is the size of the batch. *)
Definition batch_ok (docs : list Document) : Prop :=
  forall i doc, docs !! i = Some doc ->
    chunk_id doc = Z.of_nat i /\
    metadata doc !! "chunk_index"%string = Some (VInt (Z.of_nat i)) /\
    metadata doc !! "total_chunks"%string
      = Some (VInt (Z.of_nat (length docs))).

(** Lines 66-105. Nothing in the body raises ([_extract_content] has its
    own handler), so the outer [except] never runs; [None] is a
    [split_text] still running after [fuel] iterations. *)
Definition load_document (fuel : nat) (file_path : Path)
  : option (list Document) :=
  let content := _extract_content fs lib file_path in
  if negb (truthy content) then Some []
  else
    chunks ← split_text self content fuel;
    Some (documents_of_path file_path chunks).

(** Lines 107-148. [uploaded_file] is the outcome of [uploaded_file.read()];
    when that raises, the handler of lines 146-148 answers [[]]. *)
Definition load_uploaded_file (fuel : nat) (uploaded_file : result bytes)
  (filename : str) : option (list Document) :=
  let file_ext := lower (suffix filename) in
  match uploaded_file with
  | Raise _ => Some []
  | Return data =>
      let content := _extract_content_from_bytes lib data file_ext filename in
      if negb (truthy content) then Some []
      else
        chunks ← split_text self content fuel;
        Some (documents_of_upload filename file_ext chunks)
  end.

(** Lines 55-61: the loop over the files of the scan. *)
Fixpoint load_files (fuel : nat) (files : list Path) (documents : list Document)
  : option (list Document) :=
  match files with
  | [] => Some documents
  | file_path :: files' =>
      if is_file fs file_path
         && bool_decide (suffix file_path ∈ supported_extensions self)
      then
        docs ← load_document fuel file_path;
        load_files fuel files' (documents ++ docs)
      else load_files fuel files' documents
  end.

(** Lines 39-64. A scan that raises is not handled here. *)
Definition load_documents_from_directory (fuel : nat) (directory : Path)
  : option (result (list Document)) :=
  if negb (path_exists fs directory) then Some (Return [])
  else
    match rglob fs directory with
    | Raise e => Some (Raise e)
    | Return files => Return <$> load_files fuel files []
    end.

End load.

(** *** Change matching, lines 326-347 *)

(** Lines 342-345: the inner loop; [true] is the [append] followed by
    [break]. *)
Fixpoint matches_changed (doc : Document) (changed_files : list str) : bool :=
  match changed_files with
  | [] => false
  | changed_file :: rest =>
      if contains (source doc) changed_file then true
      else matches_changed doc rest
  end.

Fixpoint filter_changed_documents
  (all_docs : list Document) (changed_files : list str) : list Document :=
  match all_docs with
  | [] => []
  | doc :: rest =>
      if matches_changed doc changed_files
      then doc :: filter_changed_documents rest changed_files
      else filter_changed_documents rest changed_files
  end.

End document_processor.

(** ** upload_handlers.py *)

Module upload_handlers.

Import pathlib.

(** A [requests.Response] as far as the handlers look at it. *)
Record Response := {
  status_code : Z;
  cookies : list (str * str);
  headers : list (str * str);
  iter_content : result (list bytes)
}.

(** [response.raise_for_status()]: [HTTPError] for a 4xx or 5xx status. *)
Definition raise_for_status (response : Response) : result unit :=
  if ((400 <=? status_code response) && (status_code response <? 600))%Z
  then Raise (OtherException "HTTPError")
  else Return tt.

(** [response.headers.get(key, default)]; header names compare without
    regard to case. *)
Fixpoint headers_get (hs : list (str * str)) (key default : str) : str :=
  match hs with
  | [] => default
  | (k, v) :: hs' =>
      if str_eqb (lower k) (lower key) then v else headers_get hs' key default
  end.

(** What the handlers ask of the machine and of the network. A plain
    [GET] answers with a [Response] whatever its status; it raises only
    when no response arrives or the URL cannot be used at all. *)
Record Environment := {
  mkdtemp : str -> result Path;
  git_clone : str -> Path -> result unit;
  http_get : str -> list (str * str) -> result Response;
  gettempdir : Path;
  write_file : Path -> list bytes -> result unit
}.

(** Lines 121-124 and 186-189: stream the body into [output_path]. *)
Definition save_body (env : Environment) (response : Response)
  (output_path : Path) : result unit :=
  body ← iter_content response;
  write_file env output_path
    (List.filter (fun chunk => match chunk with [] => false | _ => true end)
       body).

(** The [except] clauses of all three handlers: log, answer [None]. *)
Definition or_None {A} (body : result A) : result (option A) :=
  try_except (Some <$> body) (fun _ => Return None).

Module GitHubRepoHandler.

(** Lines 19-60 *)
Definition clone_repo (env : Environment) (repo_url : str)
  (target_dir : option Path) : result (option Path) :=
  or_None
    (target_dir ←
       match target_dir with
       | None => mkdtemp env (lit "github_repo_")
       | Some d => Return d
       end;
     let repo_url :=
       if negb (startswith repo_url (lit "http://")
                || startswith repo_url (lit "https://"))
       then lit "https://github.com/" ++ repo_url
       else repo_url in
     let repo_url :=
       if negb (endswith repo_url (lit ".git"))
       then repo_url ++ lit ".git"
       else repo_url in
     _ ← git_clone env repo_url target_dir;
     Return target_dir).

End GitHubRepoHandler.

Module GoogleDriveHandler.

(** Lines 66-76 *)
Definition extract_file_id (drive_url : str) : result (option str) :=
  if contains drive_url (lit "/file/d/") then
    rest ← index (split drive_url (lit "/file/d/")) 1;
    Some <$> index (split rest (lit "/")) 0
  else if contains drive_url (lit "id=") then
    rest ← index (split drive_url (lit "id=")) 1;
    Some <$> index (split rest (lit "&")) 0
  else if contains drive_url (lit "/open?id=") then
    rest ← index (split drive_url (lit "/open?id=")) 1;
    Some <$> index (split rest (lit "&")) 0
  else Return None.

(** Lines 105-108: one more request for every [download_warning] cookie
    of the first response. *)
Fixpoint confirm (env : Environment) (download_url file_id : str)
  (cookies : list (str * str)) (response : Response) : result Response :=
  match cookies with
  | [] => Return response
  | (key, value) :: cookies' =>
      if startswith key (lit "download_warning") then
        response' ← http_get env download_url
                      [(lit "id", file_id); (lit "confirm", value)];
        confirm env download_url file_id cookies' response'
      else confirm env download_url file_id cookies' response
  end.

(** Lines 78-131 *)
Definition download_file (env : Environment) (drive_url : str)
  (output_path : option Path) : result (option Path) :=
  try_except
    (file_id ← extract_file_id drive_url;
     match file_id with
     | None => Return None
     | Some file_id =>
         if negb (truthy file_id) then Return None
         else
           let download_url :=
             lit "https://drive.google.com/uc?export=download&id="
               ++ file_id in
           response ← http_get env download_url [];
           response ← confirm env download_url file_id (cookies response)
                        response;
           output_path ←
             match output_path with
             | Some p => Return p
             | None =>
                 let content_disposition :=
                   headers_get (headers response)
                     (lit "content-disposition") [] in
                 filename ←
                   (if contains content_disposition (lit "filename=")
                    then
                      part ← index (split content_disposition
                                      (lit "filename=")) 1;
                      Return (strip_chars part [DQUOTE])
                    else Return (lit "drive_file_" ++ file_id));
                 Return (div (gettempdir env) filename)
             end;
           _ ← save_body env response output_path;
           Return (Some output_path)
     end)
    (fun _ => Return None).

End GoogleDriveHandler.

Module DropboxHandler.

(** Lines 152-196 *)
Definition download_file (env : Environment) (dropbox_url : str)
  (output_path : option Path) : result (option Path) :=
  or_None
    (let download_url :=
       if contains dropbox_url (lit "www.dropbox.com") then
         let download_url :=
           replace dropbox_url (lit "www.dropbox.com")
             (lit "dl.dropboxusercontent.com") in
         if contains download_url (lit "?dl=0")
         then replace download_url (lit "?dl=0") (lit "?dl=1")
         else if negb (contains download_url (lit "dl="))
              then download_url ++ lit "?dl=1"
              else download_url
       else dropbox_url in
     response ← http_get env download_url [];
     _ ← raise_for_status response;
     output_path ←
       match output_path with
       | Some p => Return p
       | None =>
           last ← index (split dropbox_url (lit "/")) (-1);
           filename ← index (split last (lit "?")) 0;
           Return (div (gettempdir env) filename)
       end;
     _ ← save_body env response output_path;
     Return output_path).

End DropboxHandler.

End upload_handlers.


(** ** app.py *)

Module app.

Import pathlib document_processor.

(** A call issued against the index. *)
Inductive index_call :=
| remove_documents (sources : list str)
| index_documents (docs : list Document).

Section check_for_updates.

(** [git_watcher.py], [rag_system.py] and [config.py] are not among the
    files at hand: the watcher and the index are taken as they are
    called. A method may change its own object and may raise. The watcher
    is built from a URL and a path (lines 34-37) and holds no reference
    to the index; the working tree it pulls into is read through
    [working_tree]. *)
Variable GitWatcher : Type.
Variable RAGSystem : Type.
Variable timestamp : Type.
Variable watcher_check_for_updates : GitWatcher -> result bool * GitWatcher.
Variable watcher_pull_updates : GitWatcher -> result bool * GitWatcher.
Variable watcher_get_changed_files
  : GitWatcher -> result (list str) * GitWatcher.
Variable working_tree : GitWatcher -> FileSystem.
Variable rag_remove_documents : list str -> RAGSystem -> result unit * RAGSystem.
Variable rag_index_documents
  : list Document -> RAGSystem -> result unit * RAGSystem.
Variable lib : Backends.
Variable DOCS_REPO_PATH : Path.

(** [st.session_state], with two ghost fields: the calls issued against
    the index, oldest first, and the errors shown with [st.error]. *)
Record session_state := {
  git_watcher : option GitWatcher;
  rag : RAGSystem;
  processor : DocumentProcessor;
  last_update : option timestamp;
  issued : list index_call;
  shown : list exn
}.

(** A computation over the session: it may still be running when the
    fuel of a [split_text] is spent ([None]), and otherwise leaves a
    session behind, whether it returns or raises. *)
Definition M (A : Type) : Type :=
  session_state -> option (result A * session_state).

#[local] Instance M_ret : MRet M := fun A a st => Some (Return a, st).
#[local] Instance M_bind : MBind M := fun A B k m st =>
  match m st with
  | None => None
  | Some (Return a, st') => k a st'
  | Some (Raise e, st') => Some (Raise e, st')
  end.

(** [try: body except Exception as e: handler(e)] *)
Definition try_ {A} (body : M A) (handler : exn -> M A) : M A := fun st =>
  match body st with
  | Some (Raise e, st') => handler e st'
  | r => r
  end.

(** A method call on [st.session_state.git_watcher]. *)
Definition on_watcher {A} (method : GitWatcher -> result A * GitWatcher)
  : M A := fun st =>
  match git_watcher st with
  | None => Some (Raise (OtherException "AttributeError"), st)
  | Some w =>
      let '(r, w') := method w in
      Some (r, {| git_watcher := Some w'; rag := rag st;
                  processor := processor st; last_update := last_update st;
                  issued := issued st; shown := shown st |})
  end.

(** A method call on [st.session_state.rag], recorded in [issued]. *)
Definition on_rag (call : index_call)
  (method : RAGSystem -> result unit * RAGSystem) : M unit := fun st =>
  let '(r, rag') := method (rag st) in
  Some (r, {| git_watcher := git_watcher st; rag := rag';
              processor := processor st; last_update := last_update st;
              issued := issued st ++ [call]; shown := shown st |}).

(** [st.session_state.processor.load_documents_from_directory(...)] on
    the working tree as the watcher left it. *)
Definition load_repo (fuel : nat) : M (list Document) := fun st =>
  match git_watcher st with
  | None => Some (Raise (OtherException "AttributeError"), st)
  | Some w =>
      match load_documents_from_directory (working_tree w) lib (processor st)
              fuel DOCS_REPO_PATH with
      | None => None
      | Some r => Some (r, st)
      end
  end.

(** [st.session_state.last_update = time.time()] *)
Definition set_last_update (now : timestamp) : M unit := fun st =>
  Some (Return tt,
        {| git_watcher := git_watcher st; rag := rag st;
           processor := processor st; last_update := Some now;
           issued := issued st; shown := shown st |}).

(** [st.error(f"Error checking for updates: {e}")] *)
Definition st_error (e : exn) : M unit := fun st =>
  Some (Return tt,
        {| git_watcher := git_watcher st; rag := rag st;
           processor := processor st; last_update := last_update st;
           issued := issued st; shown := shown st ++ [e] |}).

(** ['git_watcher' in st.session_state] *)
Definition has_watcher : M bool := fun st =>
  Some (Return (bool_decide (is_Some (git_watcher st))), st).

(** Lines 54-81. [now] is what [time.time()] reads on line 76. The body
    of the [try] answers [true] where the source returns [True] and
    [false] where control falls through to line 81. *)
Definition check_for_updates (fuel : nat) (now : timestamp) : M bool :=
  present ← has_watcher;
  if present : bool then
    try_
      (changed ← on_watcher watcher_check_for_updates;
       if changed : bool then
         pulled ← on_watcher watcher_pull_updates;
         if pulled : bool then
           changed_files ← on_watcher watcher_get_changed_files;
           _ ← on_rag (remove_documents changed_files)
                 (rag_remove_documents changed_files);
           docs ← load_repo fuel;
           let changed_docs := filter_changed_documents docs changed_files in
           _ ← on_rag (index_documents changed_docs)
                 (rag_index_documents changed_docs);
           _ ← set_last_update now;
           mret true
         else mret false
       else mret false)
      (fun e => _ ← st_error e; mret false)
  else mret false.

End check_for_updates.

Arguments git_watcher {_ _ _} _.
Arguments rag {_ _ _} _.
Arguments processor {_ _ _} _.
Arguments last_update {_ _ _} _.
Arguments issued {_ _ _} _.
Arguments shown {_ _ _} _.

(** *** Uploads, lines 84-150 *)

(** A Streamlit [UploadedFile]: its [name] and the outcome of [read()]. *)
Record UploadedFile := {
  file_name : str;
  file_read : result bytes
}.

(** Ghost record of a run of [process_uploaded_sources]: the paths given
    to [shutil.rmtree] or [unlink], and the messages shown with
    [st.error], oldest first. *)
Record upload_trace := {
  cleaned : list Path;
  failed : list string
}.

(** Truth value of an optional string argument: given and not empty. *)
Definition given (url : option str) : option str :=
  match url with
  | Some (c :: u) => Some (c :: u)
  | _ => None
  end.

Section process_uploaded_sources.
Variable GitWatcher : Type.
Variable RAGSystem : Type.
Variable timestamp : Type.
Variable rag_index_documents
  : list Document -> RAGSystem -> result unit * RAGSystem.
Variable lib : Backends.
Variable env : upload_handlers.Environment.

(** The file system as the clone, the Drive download and the Dropbox
    download have left it. *)
Variable cloned : FileSystem.
Variable from_drive : FileSystem.
Variable from_dropbox : FileSystem.

(** The part of the run that gathers [all_docs]: it may still be running
    when the fuel of a [split_text] is spent, and otherwise leaves a
    trace behind, whether it returns or raises. *)
Definition G (A : Type) : Type :=
  upload_trace -> option (result A * upload_trace).

#[local] Instance G_ret : MRet G := fun A a tr => Some (Return a, tr).
#[local] Instance G_bind : MBind G := fun A B k m tr =>
  match m tr with
  | None => None
  | Some (Return a, tr') => k a tr'
  | Some (Raise e, tr') => Some (Raise e, tr')
  end.

(** A call that may not return. *)
Definition running {A} (call : option A) : G A := fun tr =>
  match call with
  | None => None
  | Some a => Some (Return a, tr)
  end.

(** A call that may raise. *)
Definition raising {A} (call : result A) : G A := fun tr => Some (call, tr).

(** [try: shutil.rmtree(path)] and [try: path.unlink()], both with
    [except: pass]. *)
Definition cleanup (path : Path) : G unit := fun tr =>
  Some (Return tt, {| cleaned := cleaned tr ++ [path]; failed := failed tr |}).

(** [st.error(message)] *)
Definition st_error_message (message : string) : G unit := fun tr =>
  Some (Return tt,
        {| cleaned := cleaned tr; failed := failed tr ++ [message] |}).

(** Lines 90-94 *)
Fixpoint load_uploads (self : DocumentProcessor) (fuel : nat)
  (uploaded_files : list UploadedFile) (all_docs : list Document)
  : G (list Document) :=
  match uploaded_files with
  | [] => mret all_docs
  | uploaded_file :: rest =>
      docs ← running (load_uploaded_file lib self fuel
                        (file_read uploaded_file) (file_name uploaded_file));
      load_uploads self fuel rest (all_docs ++ docs)
  end.

(** Lines 86-142 *)
Definition gather_sources (self : DocumentProcessor) (fuel : nat)
  (uploaded_files : option (list UploadedFile))
  (github_url drive_url dropbox_url : option str) : G (list Document) :=
  let all_docs := [] in
  all_docs ←
    match uploaded_files with
    | Some (uploaded_file :: rest) =>
        load_uploads self fuel (uploaded_file :: rest) all_docs
    | _ => mret all_docs
    end;
  all_docs ←
    match given github_url with
    | Some github_url =>
        temp_dir ← raising (upload_handlers.GitHubRepoHandler.clone_repo env
                              github_url None);
        match temp_dir with
        | Some temp_dir =>
            scan ← running (load_documents_from_directory cloned lib self
                              fuel temp_dir);
            docs ← raising scan;
            _ ← cleanup temp_dir;
            mret (all_docs ++ docs)
        | None =>
            _ ← st_error_message "Failed to clone GitHub repository";
            mret all_docs
        end
    | None => mret all_docs
    end;
  all_docs ←
    match given drive_url with
    | Some drive_url =>
        file_path ← raising (upload_handlers.GoogleDriveHandler.download_file
                               env drive_url None);
        match file_path with
        | Some file_path =>
            docs ← running (load_document from_drive lib self fuel file_path);
            _ ← cleanup file_path;
            mret (all_docs ++ docs)
        | None =>
            _ ← st_error_message "Failed to download from Google Drive";
            mret all_docs
        end
    | None => mret all_docs
    end;
  match given dropbox_url with
  | Some dropbox_url =>
      file_path ← raising (upload_handlers.DropboxHandler.download_file env
                             dropbox_url None);
      match file_path with
      | Some file_path =>
          docs ← running (load_document from_dropbox lib self fuel file_path);
          _ ← cleanup file_path;
          mret (all_docs ++ docs)
      | None =>
          _ ← st_error_message "Failed to download from Dropbox";
          mret all_docs
      end
  | None => mret all_docs
  end.

(** Lines 84-150. [now] is what [time.time()] reads on line 147. Nothing
    here catches what [index_documents] or the scan of the clone raises. *)
Definition process_uploaded_sources (fuel : nat) (now : timestamp)
  (uploaded_files : option (list UploadedFile))
  (github_url drive_url dropbox_url : option str)
  (st : session_state GitWatcher RAGSystem timestamp) (tr : upload_trace)
  : option (result Z * session_state GitWatcher RAGSystem timestamp
            * upload_trace) :=
  match gather_sources (processor st) fuel uploaded_files
          github_url drive_url dropbox_url tr with
  | None => None
  | Some (Raise e, tr') => Some (Raise e, st, tr')
  | Some (Return all_docs, tr') =>
      match all_docs with
      | [] => Some (Return (Z.of_nat (length all_docs)), st, tr')
      | _ :: _ =>
          match on_rag GitWatcher RAGSystem timestamp
                  (index_documents all_docs)
                  (rag_index_documents all_docs) st with
          | None => None
          | Some (Raise e, st') => Some (Raise e, st', tr')
          | Some (Return _, st') =>
              match set_last_update GitWatcher RAGSystem timestamp now st'
              with
              | Some (_, st'') =>
                  Some (Return (Z.of_nat (length all_docs)), st'', tr')
              | None => None
              end
          end
      end
  end.

End process_uploaded_sources.

(** What a handler that was asked (its URL was given) has to show for it:
    the path it materialized, to be cleaned up, or the message for its
    failure. *)
Definition materialized (asked : option (result (option Path))) : list Path :=
  match asked with
  | Some (Return (Some path)) => [path]
  | _ => []
  end.

Definition refused (asked : option (result (option Path))) (message : string)
  : list string :=
  match asked with
  | Some (Return None) => [message]
  | _ => []
  end.

End app.


(** ** Concrete inputs *)

Module inputs.

Import pathlib document_processor.

(** A heading, a blank line and one paragraph of 1500 letters. *)
Definition heading_and_paragraph : str :=
  lit "# Title" ++ [LF; LF] ++ replicate 1500 120%N.

(** Three spaces. *)
Definition blanks : str := lit "   ".

(** A word between two spaces. *)
Definition padded : str := lit " a ".

Definition two_sentences : str :=
  lit "The quick brown fox. Jumps over the lazy dog and runs away".

Definition five_letters : str := lit "alphabetagammadeltaepsilon".

(** Two paragraphs. *)
Definition two_paragraphs : str :=
  lit "First part." ++ [LF; LF] ++ lit "Second part of the text".

Definition ten_words : str :=
  lit "one two three four five six seven eight nine ten".

(** No extraction library installed. *)
Definition no_backends : Backends :=
  {| pdfplumber := None; PyPDF2 := None; docx := None; pptx := None |}.

(** A file system with the one file [path], which holds [data]. *)
Definition one_file (path : Path) (data : bytes) : FileSystem :=
  {| path_exists := fun p => str_eqb p path;
     is_file := fun p => str_eqb p path;
     rglob := fun _ => Return [];
     read_bytes := fun p =>
       if str_eqb p path then Return data
       else Raise (OtherException "FileNotFoundError") |}.

(** The bytes of an ASCII literal. *)
Definition ascii_bytes (s : string) : bytes := list_byte_of_string s.

(** [notes.txt] holding [ten_words]. *)
Definition notes_txt : Path := lit "notes.txt".

Definition notes_fs : FileSystem :=
  one_file notes_txt
    (ascii_bytes "one two three four five six seven eight nine ten").

Definition ten_words_chunks : list str :=
  [lit "one two"; lit "wo three"; lit "ee four"; lit "ur five six";
   lit "ix seven"; lit "en eight"; lit "ht nine ten"].

(** The four bytes of ["a\r\nb"], a line ended the Windows way. *)
Definition crlf_bytes : bytes := [Byte.x61; Byte.x0d; Byte.x0a; Byte.x62].

(** Three chunks of a repository checked out under [docs_repo]: one of
    [docs/api.md], one of [legacy/docs/api.md], one of [docs/guide.md]. *)
Definition api_doc : Document :=
  {| content := lit "new api"; source := lit "docs_repo/docs/api.md";
     chunk_id := 0; metadata := ∅ |}.

Definition legacy_doc : Document :=
  {| content := lit "old api"; source := lit "docs_repo/legacy/docs/api.md";
     chunk_id := 0; metadata := ∅ |}.

Definition guide_doc : Document :=
  {| content := lit "guide"; source := lit "docs_repo/docs/guide.md";
     chunk_id := 0; metadata := ∅ |}.

(** Modelled from the spec: the index of [rag_system.py], which is not
    among the files at hand. It holds the chunks; [removeDocuments] drops
    the chunks of the given sources and [indexDocuments] adds chunks. *)
Definition Index := list Document.

Definition removeDocuments (sourceIds : list str) (index : Index)
  : result unit * Index :=
  (Return tt,
   List.filter (fun doc => negb (bool_decide (source doc ∈ sourceIds))) index).

Definition indexDocuments (chunks : list Document) (index : Index)
  : result unit * Index :=
  (Return tt, index ++ chunks).

(** Modelled from the spec: a watcher whose remote has changed and whose
    pull fails. Its state counts the calls it has seen. *)
Definition failing_check (calls : nat) : result bool * nat :=
  (Return true, S calls).

Definition failing_pull (calls : nat) : result bool * nat :=
  (Return false, S calls).

Definition failing_changed_files (calls : nat) : result (list str) * nat :=
  (Return [lit "docs/api.md"], S calls).

(** A session with two chunks indexed. *)
Definition session : app.session_state nat Index Z :=
  {| app.git_watcher := Some 0%nat;
     app.rag := [api_doc; guide_doc];
     app.processor := default_processor;
     app.last_update := None;
     app.issued := [];
     app.shown := [] |}.

(** A server that answers every request with 404 and an error page, on
    a machine where writing to the temporary directory works. *)
Definition not_found : upload_handlers.Response :=
  {| upload_handlers.status_code := 404;
     upload_handlers.cookies := [];
     upload_handlers.headers := [];
     upload_handlers.iter_content := Return [ascii_bytes "Not Found"] |}.

Definition missing_resource : upload_handlers.Environment :=
  {| upload_handlers.mkdtemp := fun _ => Return (lit "/tmp/github_repo_0");
     upload_handlers.git_clone := fun _ _ =>
       Raise (CalledProcessError (lit "repository not found"));
     upload_handlers.http_get := fun _ _ => Return not_found;
     upload_handlers.gettempdir := lit "/tmp";
     upload_handlers.write_file := fun _ _ => Return tt |}.

(** [report.pdf], and a [pdfplumber] that reads one page out of any
    content. *)
Definition report_pdf : Path := lit "docs_repo/report.pdf".

Definition report_fs : FileSystem :=
  {| path_exists := fun _ => true;
     is_file := fun p => str_eqb p report_pdf || str_eqb p notes_txt;
     rglob := fun _ => Return [lit "docs_repo/.git"; report_pdf; notes_txt;
                               lit "docs_repo/logo.png"];
     read_bytes := fun p =>
       if str_eqb p report_pdf then Return (ascii_bytes "%PDF-1.7")
       else if str_eqb p notes_txt
       then Return (ascii_bytes "one two three four five six seven")
       else Raise (OtherException "FileNotFoundError") |}.

Definition one_page : Backends :=
  {| pdfplumber := Some (fun _ => Return [Some (lit "page one")]);
     PyPDF2 := None; docx := None; pptx := None |}.

(** An upload whose [read()] gives [ten_words]. *)
Definition ten_words_upload : result bytes :=
  Return (ascii_bytes "one two three four five six seven eight nine ten").

(** Modelled from the spec: a watcher whose remote has changed in
    [notes.txt] and whose pull succeeds. *)
Definition good_pull (calls : nat) : result bool * nat :=
  (Return true, S calls).

Definition good_changed_files (calls : nat) : result (list str) * nat :=
  (Return [lit "notes.txt"], S calls).

(** Modelled from the spec: a watcher whose remote has not changed. *)
Definition idle_check (calls : nat) : result bool * nat :=
  (Return false, S calls).

(** A session that indexed an older [notes.txt]. *)
Definition old_notes : Document :=
  {| content := lit "one two"; source := lit "notes.txt";
     chunk_id := 0; metadata := ∅ |}.

Definition synced_session : app.session_state nat Index Z :=
  {| app.git_watcher := Some 0%nat;
     app.rag := [api_doc; old_notes];
     app.processor := new 12 2;
     app.last_update := None;
     app.issued := [];
     app.shown := [] |}.

(** A network on which everything asked for exists: clones succeed and
    every request is answered with 200 and a two-piece body. *)
Definition found : upload_handlers.Response :=
  {| upload_handlers.status_code := 200;
     upload_handlers.cookies := [];
     upload_handlers.headers :=
       [(lit "Content-Disposition", lit "attachment; filename=notes.txt")];
     upload_handlers.iter_content :=
       Return [ascii_bytes "one two three "; []; ascii_bytes "four five"] |}.

Definition reachable : upload_handlers.Environment :=
  {| upload_handlers.mkdtemp := fun prefix => Return (lit "/tmp/" ++ prefix ++ lit "0");
     upload_handlers.git_clone := fun _ _ => Return tt;
     upload_handlers.http_get := fun _ _ => Return found;
     upload_handlers.gettempdir := lit "/tmp";
     upload_handlers.write_file := fun _ _ => Return tt |}.

(** An upload named [Notes.TXT], and the trace of a run that has not
    begun. *)
Definition notes_upload : app.UploadedFile :=
  {| app.file_name := lit "Notes.TXT"; app.file_read := ten_words_upload |}.

Definition no_trace : app.upload_trace :=
  {| app.cleaned := []; app.failed := [] |}.

(** [synced_session] after the upload of [notes_upload] at time 5. *)
Definition notes_upload_docs : list Document :=
  documents_of_upload (lit "Notes.TXT") (lit ".txt") ten_words_chunks.

Definition uploaded_session : app.session_state nat Index Z :=
  {| app.git_watcher := Some 0%nat;
     app.rag := [api_doc; old_notes] ++ notes_upload_docs;
     app.processor := new 12 2;
     app.last_update := Some 5%Z;
     app.issued := [app.index_documents notes_upload_docs];
     app.shown := [] |}.

(** A directory that exists and cannot be listed. *)
Definition unlistable : FileSystem :=
  {| path_exists := fun _ => true;
     is_file := fun _ => false;
     rglob := fun _ => Raise (OtherException "PermissionError");
     read_bytes := fun _ => Raise (OtherException "PermissionError") |}.

End inputs.


(** * Properties *)

(** ** The string operations *)

Section py_facts.
Local Open Scope Z_scope.

Lemma len_nonneg s : 0 <= len s.
Proof. unfold len. lia. Qed.

Lemma adjust_range n i : 0 <= n -> 0 <= adjust n i <= n.
Proof. unfold adjust. destruct (i <? 0) eqn:E; lia. Qed.

Lemma len_slice s a b :
  len (slice s a b) = Z.max 0 (adjust (len s) b - adjust (len s) a).
Proof.
  unfold slice.
  pose proof (adjust_range (len s) a (len_nonneg s)) as Ha.
  pose proof (adjust_range (len s) b (len_nonneg s)) as Hb.
  unfold len in *. rewrite length_take, length_drop. lia.
Qed.

Lemma rfind_from_range sub s lo k i :
  rfind_from sub s lo k = Some i -> (lo <= i < lo + k)%nat.
Proof.
  induction k as [|k IH]; simpl; [done|].
  destruct (startswith _ _).
  - intros [= <-]. lia.
  - intros H. apply IH in H. lia.
Qed.

(** [rfind] answers [-1] or an index of the adjusted window at which
    [sub] still fits. *)
Lemma rfind_range s sub a b :
  rfind s sub a b = -1 \/
  adjust (len s) a <= rfind s sub a b <= adjust (len s) b - len sub.
Proof.
  unfold rfind.
  pose proof (adjust_range (len s) a (len_nonneg s)) as Ha.
  destruct (_ <=? _) eqn:E; [|by left].
  destruct (rfind_from _ _ _ _) as [i|] eqn:F; [|by left].
  apply rfind_from_range in F. right. lia.
Qed.

Variable p : char -> bool.

Lemma lstrip_suffix s : exists w, s = w ++ lstrip_with p s.
Proof.
  induction s as [|c s [w IH]]; simpl.
  - by exists [].
  - destruct (p c).
    + exists (c :: w). simpl. by rewrite <- IH.
    + by exists [].
Qed.

Lemma length_lstrip s : (length (lstrip_with p s) <= length s)%nat.
Proof.
  destruct (lstrip_suffix s) as [w Hw].
  rewrite Hw at 2. rewrite length_app. lia.
Qed.

Lemma length_rstrip s : (length (rstrip_with p s) <= length s)%nat.
Proof.
  unfold rstrip_with. rewrite length_reverse.
  etrans; [apply length_lstrip|]. by rewrite length_reverse.
Qed.

Lemma len_strip_with s : len (strip_with p s) <= len s.
Proof.
  unfold strip_with, len.
  pose proof (length_rstrip (lstrip_with p s)).
  pose proof (length_lstrip s). lia.
Qed.

Lemma lstrip_clean s : clean_head p (lstrip_with p s).
Proof.
  induction s as [|c s IH]; simpl; [done|].
  destruct (p c) eqn:E; [done|]. simpl. done.
Qed.

Lemma lstrip_id s : clean_head p s -> lstrip_with p s = s.
Proof. destruct s as [|c s]; simpl; [done|]. by intros ->. Qed.

Lemma rstrip_prefix s : exists w, s = rstrip_with p s ++ w.
Proof.
  destruct (lstrip_suffix (reverse s)) as [w Hw].
  exists (reverse w). unfold rstrip_with.
  rewrite <- reverse_app, <- Hw. by rewrite reverse_involutive.
Qed.

Lemma rstrip_clean_head s : clean_head p s -> clean_head p (rstrip_with p s).
Proof.
  destruct (rstrip_prefix s) as [w Hw].
  destruct (rstrip_with p s) as [|c r] eqn:E; [done|].
  rewrite Hw. simpl. done.
Qed.

Lemma strip_with_idemp s : strip_with p (strip_with p s) = strip_with p s.
Proof.
  assert (clean_head p (strip_with p s)) as Hh
    by (apply rstrip_clean_head, lstrip_clean).
  assert (clean_head p (reverse (strip_with p s))) as Hl.
  { unfold strip_with, rstrip_with. rewrite reverse_involutive.
    apply lstrip_clean. }
  unfold strip_with at 1. rewrite (lstrip_id _ Hh).
  unfold rstrip_with at 1. rewrite (lstrip_id _ Hl).
  apply reverse_involutive.
Qed.

End py_facts.

Lemma len_strip s : (len (strip s) <= len s)%Z.
Proof. apply len_strip_with. Qed.

Lemma strip_strip s : strip (strip s) = strip s.
Proof. apply strip_with_idemp. Qed.

Lemma truthy_spec s : truthy s = true <-> s <> [].
Proof. destruct s; simpl; split; congruence. Qed.

(** [sub in s] is: [s] reads [pre ++ sub ++ post]. *)
Lemma startswith_spec s sub :
  startswith s sub = true <-> exists post, s = sub ++ post.
Proof.
  revert s. induction sub as [|c sub IH]; intros s.
  - destruct s; simpl; split; eauto.
  - destruct s as [|d s]; cbn [startswith].
    + split; [done|]. by intros [post ?].
    + rewrite andb_true_iff, N.eqb_eq, IH. split.
      * intros (-> & post & ->). by exists post.
      * intros [post [= -> ->]]. eauto.
Qed.

Lemma contains_spec s sub :
  contains s sub = true <-> exists pre post, s = pre ++ sub ++ post.
Proof.
  induction s as [|d s IH].
  - cbn [contains]. rewrite orb_false_r, startswith_spec. split.
    + intros [post ->]. by exists [], post.
    + intros (pre & post & H). symmetry in H.
      apply app_eq_nil in H as [-> H]. apply app_eq_nil in H as [-> ->].
      by exists [].
  - cbn [contains]. rewrite orb_true_iff, IH, startswith_spec. split.
    + intros [[post ->]|(pre & post & ->)].
      * by exists [], post.
      * by exists (d :: pre), post.
    + intros (pre & post & H). destruct pre as [|d' pre].
      * left. by exists post.
      * right. injection H as -> ->. by exists pre, post.
Qed.


(** ** The segmenter *)

Import document_processor.

Section loop_facts.
Local Open Scope Z_scope.
Variable self : DocumentProcessor.
Variable text : str.

Lemma split_loop_step fuel start chunks :
  start < len text ->
  split_loop self text (S fuel) start chunks =
  split_loop self text fuel (next_start self text start)
    (if truthy (chunk_at self text start)
     then chunks ++ [chunk_at self text start] else chunks).
Proof. intros H. cbn [split_loop]. by apply Z.ltb_lt in H as ->. Qed.

Lemma split_loop_spent start chunks :
  start < len text -> split_loop self text 0 start chunks = None.
Proof. intros H. cbn [split_loop]. by apply Z.ltb_lt in H as ->. Qed.

Lemma split_loop_done fuel start chunks :
  len text <= start -> split_loop self text fuel start chunks = Some chunks.
Proof.
  intros H. apply Z.ltb_ge in H. destruct fuel; cbn [split_loop]; by rewrite H.
Qed.

(** An offset that the loop body maps to itself is never left. *)
Lemma split_loop_stalled start :
  start < len text -> next_start self text start = start ->
  forall fuel chunks, split_loop self text fuel start chunks = None.
Proof.
  intros Hlt Hfix fuel. induction fuel as [|fuel IH]; intros chunks.
  - by apply split_loop_spent.
  - rewrite split_loop_step by done. rewrite Hfix. apply IH.
Qed.

(** Whatever holds of the chunks gathered so far and of every chunk the
    body appends holds of the chunks returned. *)
Lemma split_loop_Forall (Q : str -> Prop) (I : Z -> Prop) :
  (forall start, I start -> start < len text ->
     I (next_start self text start) /\
     (chunk_at self text start <> [] -> Q (chunk_at self text start))) ->
  forall fuel start chunks out,
    I start -> Forall Q chunks ->
    split_loop self text fuel start chunks = Some out -> Forall Q out.
Proof.
  intros Hbody fuel. induction fuel as [|fuel IH]; intros start chunks out HI HQ.
  - destruct (Z.lt_ge_cases start (len text)) as [Hlt|Hge].
    + by rewrite split_loop_spent.
    + rewrite split_loop_done by done. by intros [= <-].
  - destruct (Z.lt_ge_cases start (len text)) as [Hlt|Hge].
    + rewrite split_loop_step by done.
      destruct (Hbody start HI Hlt) as [HI' Hchunk].
      apply IH; [done|].
      destruct (truthy _) eqn:E; [|done].
      apply Forall_app. split; [done|]. apply Forall_singleton.
      apply Hchunk. by apply truthy_spec.
    + rewrite split_loop_done by done. by intros [= <-].
Qed.

(** The short-text path of lines 292-293. *)
Lemma split_text_short fuel :
  len text <= chunk_size self -> split_text self text fuel = Some [text].
Proof. intros H. unfold split_text. by apply Z.leb_le in H as ->. Qed.

(** Every chunk gathered by the loop is trimmed and non-empty: trimming it
    again leaves it as it is. *)
Lemma split_loop_trimmed fuel start out :
  split_loop self text fuel start [] = Some out ->
  Forall (fun chunk => strip chunk = chunk /\ chunk <> []) out.
Proof.
  apply (split_loop_Forall _ (fun _ => True)); [|done|done].
  intros s _ _. split; [done|]. intros Hne. split; [|done].
  unfold chunk_at. apply strip_strip.
Qed.

Hypothesis size_nonneg : 0 <= chunk_size self.
Hypothesis overlap_lt : chunk_overlap self < chunk_size self.
Hypothesis long : chunk_size self < len text.

Lemma body_bound start :
  start_ok self start -> start < len text ->
  start_ok self (next_start self text start) /\
  len (slice text start (cut_point self text start)) <= chunk_size self.
Proof.
  unfold start_ok, next_start. rewrite len_slice. unfold cut_point.
  intros Hok Hlt.
  pose proof (len_nonneg text) as Hn.
  pose proof (rfind_range text [LF; LF] start (start + chunk_size self)) as H1.
  pose proof (rfind_range text (lit ". ") start (start + chunk_size self)) as H2.
  pose proof (rfind_range text (lit " ") start (start + chunk_size self)) as H3.
  change (len [LF; LF]) with 2 in H1.
  change (len (lit ". ")) with 2 in H2.
  change (len (lit " ")) with 1 in H3.
  set (r1 := rfind text [LF; LF] start (start + chunk_size self)) in *.
  set (r2 := rfind text (lit ". ") start (start + chunk_size self)) in *.
  set (r3 := rfind text (lit " ") start (start + chunk_size self)) in *.
  clearbody r1 r2 r3.
  unfold adjust in *.
  repeat match goal with
         | |- context [if ?b then _ else _] => destruct b eqn:?
         | H : context [if ?b then _ else _] |- _ => destruct b eqn:?
         end; lia.
Qed.

End loop_facts.

(** With an overlap that is not below the chunk size the loop never gets
    within one window of the end of a long text, so it never returns. *)
Section wide_overlap.
Local Open Scope Z_scope.
Variable self : DocumentProcessor.
Variable text : str.
Hypothesis size_nonneg : 0 <= chunk_size self.
Hypothesis overlap_ge : chunk_size self <= chunk_overlap self.
Hypothesis long : chunk_size self < len text.

Lemma next_start_short_of_end start :
  start + chunk_size self < len text ->
  next_start self text start + chunk_size self < len text.
Proof.
  unfold next_start, cut_point. intros Hlt.
  pose proof (len_nonneg text) as Hn.
  pose proof (rfind_range text [LF; LF] start (start + chunk_size self)) as H1.
  pose proof (rfind_range text (lit ". ") start (start + chunk_size self)) as H2.
  pose proof (rfind_range text (lit " ") start (start + chunk_size self)) as H3.
  pose proof (adjust_range (len text) (start + chunk_size self) Hn) as Ha.
  change (len [LF; LF]) with 2 in H1.
  change (len (lit ". ")) with 2 in H2.
  change (len (lit " ")) with 1 in H3.
  set (r1 := rfind text [LF; LF] start (start + chunk_size self)) in *.
  set (r2 := rfind text (lit ". ") start (start + chunk_size self)) in *.
  set (r3 := rfind text (lit " ") start (start + chunk_size self)) in *.
  set (hi := adjust (len text) (start + chunk_size self)) in *.
  clearbody r1 r2 r3 hi.
  repeat match goal with
         | |- context [if ?b then _ else _] => destruct b eqn:?
         end; lia.
Qed.

Lemma split_loop_never_returns fuel :
  forall start chunks,
    start + chunk_size self < len text ->
    split_loop self text fuel start chunks = None.
Proof.
  induction fuel as [|fuel IH]; intros start chunks Hlt.
  - apply split_loop_spent. lia.
  - rewrite split_loop_step by lia. apply IH.
    by apply next_start_short_of_end.
Qed.

End wide_overlap.

(** What does make the loop return: offsets that advance. If every
    iteration from an offset inside the text moves [start] forward, the
    loop returns within [len text - start] iterations. *)
Section progress.
Local Open Scope Z_scope.
Variable self : DocumentProcessor.
Variable text : str.
Hypothesis advances :
  forall start, 0 <= start < len text -> start < next_start self text start.

Lemma split_loop_returns fuel :
  forall start chunks,
    0 <= start -> len text - start <= Z.of_nat fuel ->
    exists out, split_loop self text fuel start chunks = Some out.
Proof.
  induction fuel as [|fuel IH]; intros start chunks Hpos Hfuel.
  - exists chunks. apply split_loop_done. lia.
  - destruct (Z.lt_ge_cases start (len text)) as [Hlt|Hge].
    + rewrite split_loop_step by done.
      pose proof (advances start (conj Hpos Hlt)).
      apply IH; lia.
    + exists chunks. by apply split_loop_done.
Qed.

End progress.

(** Without overlap the offsets do advance, and [split_text] returns. *)
Lemma split_text_returns_without_overlap self text :
  (0 < chunk_size self)%Z -> (chunk_overlap self <= 0)%Z ->
  exists chunks, split_text self text (Z.to_nat (len text)) = Some chunks.
Proof.
  intros Hsize Hoverlap. unfold split_text.
  destruct (len text <=? chunk_size self)%Z; [by eexists|].
  apply split_loop_returns; [|lia|lia].
  intros start [Hpos Hlt]. unfold next_start, cut_point.
  repeat match goal with
         | |- context [if ?b then _ else _] => destruct b eqn:?
         end; lia.
Qed.

(** C10. For a chunk size that is not negative, every chunk of a list
    that [split_text] returns has at most [chunk_size] code points, on
    the short-text path and on the loop alike. *)
Theorem split_text_chunks_within_chunk_size self text fuel chunks :
  (0 <= chunk_size self)%Z ->
  split_text self text fuel = Some chunks ->
  Forall (fun chunk => (len chunk <= chunk_size self)%Z) chunks.
Proof.
  intros Hsize. unfold split_text.
  destruct (len text <=? chunk_size self)%Z eqn:E.
  - intros [= <-]. apply Forall_singleton. lia.
  - apply Z.leb_gt in E.
    destruct (Z.lt_ge_cases (chunk_overlap self) (chunk_size self))
      as [Hoverlap|Hoverlap].
    + apply (split_loop_Forall self text _ (start_ok self)); [|left; lia|done].
      intros start Hok Hlt.
      destruct (body_bound self text Hsize Hoverlap E start Hok Hlt)
        as [Hnext Hlen].
      split; [done|]. intros _. unfold chunk_at.
      etrans; [apply len_strip|done].
    + rewrite split_loop_never_returns by (done || lia). done.
Qed.

Lemma split_text_chunks_within_chunk_size_witness :
  let chunks := inputs.ten_words_chunks in
  split_text (new 12 2) inputs.ten_words 7 = Some chunks /\
  Forall (fun chunk => (len chunk <= 12)%Z) chunks.
Proof.
  intros chunks.
  assert (split_text (new 12 2) inputs.ten_words 7 = Some chunks) as H
    by (vm_compute; reflexivity).
  split; [exact H|].
  apply (split_text_chunks_within_chunk_size (new 12 2) inputs.ten_words 7);
    [simpl; lia | exact H].
Defined.

(** C1, at [DocumentProcessor()] and a heading followed by a long
    paragraph: [chunk_overlap < chunk_size] holds, the offset goes
    0, -193, -201 and then stays at -201, and no number of iterations
    lets [split_text] return. *)
Theorem split_text_regresses_and_never_returns :
  (chunk_overlap default_processor < chunk_size default_processor)%Z /\
  loop_starts default_processor inputs.heading_and_paragraph 4 0
    = [0; -193; -201; -201]%Z /\
  forall fuel,
    split_text default_processor inputs.heading_and_paragraph fuel = None.
Proof.
  assert (next_start default_processor inputs.heading_and_paragraph 0
          = (-193)%Z) as H0 by (vm_compute; reflexivity).
  assert (next_start default_processor inputs.heading_and_paragraph (-193)
          = (-201)%Z) as H1 by (vm_compute; reflexivity).
  assert (next_start default_processor inputs.heading_and_paragraph (-201)
          = (-201)%Z) as H2 by (vm_compute; reflexivity).
  assert (len inputs.heading_and_paragraph = 1509%Z) as Hlen
    by (vm_compute; reflexivity).
  split; [simpl; lia|]. split; [vm_compute; reflexivity|].
  intros fuel. unfold split_text. rewrite Hlen.
  change (1509 <=? chunk_size default_processor)%Z with false. cbv iota.
  destruct fuel as [|fuel]; [apply split_loop_spent; lia|].
  rewrite split_loop_step, H0 by lia.
  destruct fuel as [|fuel]; [apply split_loop_spent; lia|].
  rewrite split_loop_step, H1 by lia.
  apply split_loop_stalled; [lia|done].
Qed.

(** C4, at [DocumentProcessor()] and [" a "]: the text is shorter than
    [chunk_size], and the one chunk returned is the text with its spaces,
    not the trimmed ["a"]. *)
Theorem split_text_short_not_trimmed :
  (len inputs.padded <= chunk_size default_processor)%Z /\
  strip inputs.padded = lit "a" /\
  forall fuel,
    split_text default_processor inputs.padded fuel = Some [lit " a "].
Proof.
  split; [vm_compute; congruence|]. split; [vm_compute; reflexivity|].
  intros fuel. apply split_text_short. vm_compute. congruence.
Qed.

(** C5, at [DocumentProcessor()] and a text of three spaces:
    [chunk_overlap < chunk_size] holds and the chunk returned is empty
    after trimming. *)
Theorem split_text_emits_blank_chunk :
  (chunk_overlap default_processor < chunk_size default_processor)%Z /\
  strip inputs.blanks = [] /\
  forall fuel,
    split_text default_processor inputs.blanks fuel = Some [inputs.blanks].
Proof.
  split; [simpl; lia|]. split; [vm_compute; reflexivity|].
  intros fuel. apply split_text_short. vm_compute. congruence.
Qed.

(** The same stall without a negative offset: with [chunk_size = 10] and
    [chunk_overlap = 3] the sentence end at offset 19 cuts the window
    that begins at 17 at offset 20, and 20 - 3 is 17 again. *)
Example split_text_stalls_on_sentence :
  next_start (new 10 3) inputs.two_sentences 17 = 17%Z /\
  forall fuel, split_text (new 10 3) inputs.two_sentences fuel = None.
Proof.
  assert (next_start (new 10 3) inputs.two_sentences 0 = 6%Z) as H0
    by (vm_compute; reflexivity).
  assert (next_start (new 10 3) inputs.two_sentences 6 = 12%Z) as H1
    by (vm_compute; reflexivity).
  assert (next_start (new 10 3) inputs.two_sentences 12 = 17%Z) as H2
    by (vm_compute; reflexivity).
  assert (next_start (new 10 3) inputs.two_sentences 17 = 17%Z) as H3
    by (vm_compute; reflexivity).
  assert (len inputs.two_sentences = 58%Z) as Hlen
    by (vm_compute; reflexivity).
  split; [done|]. intros fuel. unfold split_text. rewrite Hlen.
  change (58 <=? chunk_size (new 10 3))%Z with false. cbv iota.
  destruct fuel as [|fuel]; [apply split_loop_spent; lia|].
  rewrite split_loop_step, H0 by lia.
  destruct fuel as [|fuel]; [apply split_loop_spent; lia|].
  rewrite split_loop_step, H1 by lia.
  destruct fuel as [|fuel]; [apply split_loop_spent; lia|].
  rewrite split_loop_step, H2 by lia.
  apply split_loop_stalled; [lia|done].
Qed.


(** ** The segmenter: what the chunks are *)

Lemma slice_substring s a b : exists pre post, s = pre ++ slice s a b ++ post.
Proof.
  unfold slice.
  set (lo := Z.to_nat (adjust (len s) a)).
  set (k := Z.to_nat (adjust (len s) b - adjust (len s) a)).
  exists (take lo s), (drop k (drop lo s)).
  by rewrite take_drop, take_drop.
Qed.

Lemma strip_with_substring p s :
  exists pre post, s = pre ++ strip_with p s ++ post.
Proof.
  destruct (lstrip_suffix p s) as [w Hw].
  destruct (rstrip_prefix p (lstrip_with p s)) as [w' Hw'].
  exists w, w'. unfold strip_with. by rewrite <- Hw', <- Hw.
Qed.

Lemma chunk_at_substring self text start :
  exists pre post, text = pre ++ chunk_at self text start ++ post.
Proof.
  unfold chunk_at, strip.
  destruct (slice_substring text start (cut_point self text start))
    as (p1 & q1 & H1).
  destruct (strip_with_substring isspace
              (slice text start (cut_point self text start)))
    as (p2 & q2 & H2).
  exists (p1 ++ p2), (q2 ++ q1).
  rewrite H1 at 1. rewrite H2 at 1. by rewrite <- !app_assoc.
Qed.

(** X1. Every chunk that [split_text] returns is a contiguous piece of
    the text: the segmenter drops and repeats code points, it never
    makes any up. *)
Theorem split_text_chunks_are_substrings self text fuel chunks :
  split_text self text fuel = Some chunks ->
  Forall (fun chunk => exists pre post, text = pre ++ chunk ++ post) chunks.
Proof.
  unfold split_text. destruct (len text <=? chunk_size self)%Z.
  - intros [= <-]. apply Forall_singleton. exists [], [].
    by rewrite app_nil_r.
  - apply (split_loop_Forall self text _ (fun _ => True)); [|done|done].
    intros start _ _. split; [done|]. intros _. apply chunk_at_substring.
Qed.

Lemma split_text_chunks_are_substrings_witness :
  split_text (new 12 2) inputs.ten_words 7 = Some inputs.ten_words_chunks /\
  Forall (fun chunk => exists pre post, inputs.ten_words = pre ++ chunk ++ post)
    inputs.ten_words_chunks.
Proof.
  assert (split_text (new 12 2) inputs.ten_words 7
          = Some inputs.ten_words_chunks) as H by (vm_compute; reflexivity).
  split; [exact H|].
  exact (split_text_chunks_are_substrings (new 12 2) inputs.ten_words 7
           inputs.ten_words_chunks H).
Defined.

(** X2. For a text longer than [chunk_size], every chunk that
    [split_text] returns is trimmed and not empty: stripping it again
    changes nothing. *)
Theorem split_text_long_chunks_trimmed self text fuel chunks :
  (chunk_size self < len text)%Z ->
  split_text self text fuel = Some chunks ->
  Forall (fun chunk => strip chunk = chunk /\ chunk <> []) chunks.
Proof.
  intros Hlong. unfold split_text.
  apply Z.leb_gt in Hlong as ->. apply split_loop_trimmed.
Qed.

Lemma split_text_long_chunks_trimmed_witness :
  (chunk_size (new 12 2) < len inputs.ten_words)%Z /\
  split_text (new 12 2) inputs.ten_words 7 = Some inputs.ten_words_chunks /\
  Forall (fun chunk => strip chunk = chunk /\ chunk <> [])
    inputs.ten_words_chunks.
Proof.
  assert (chunk_size (new 12 2) < len inputs.ten_words)%Z as Hlong
    by (vm_compute; reflexivity).
  assert (split_text (new 12 2) inputs.ten_words 7
          = Some inputs.ten_words_chunks) as H by (vm_compute; reflexivity).
  split; [exact Hlong|]. split; [exact H|].
  exact (split_text_long_chunks_trimmed (new 12 2) inputs.ten_words 7
           inputs.ten_words_chunks Hlong H).
Defined.

(** X3. With [0 <= chunk_size <= chunk_overlap], [split_text] never
    returns on a text longer than [chunk_size], whatever the number of
    iterations: the offset can no longer get within one window of the
    end. *)
Theorem split_text_wide_overlap_never_returns self text fuel :
  (0 <= chunk_size self)%Z ->
  (chunk_size self <= chunk_overlap self)%Z ->
  (chunk_size self < len text)%Z ->
  split_text self text fuel = None.
Proof.
  intros Hsize Hwide Hlong. unfold split_text.
  pose proof Hlong as E. apply Z.leb_gt in E as ->.
  apply split_loop_never_returns; (done || lia).
Qed.

Lemma split_text_wide_overlap_never_returns_witness :
  (0 <= chunk_size (new 12 12))%Z /\
  (chunk_size (new 12 12) <= chunk_overlap (new 12 12))%Z /\
  (chunk_size (new 12 12) < len inputs.ten_words)%Z /\
  split_text (new 12 12) inputs.ten_words 1000 = None.
Proof.
  assert (0 <= chunk_size (new 12 12))%Z as H1 by (simpl; lia).
  assert (chunk_size (new 12 12) <= chunk_overlap (new 12 12))%Z as H2
    by (simpl; lia).
  assert (chunk_size (new 12 12) < len inputs.ten_words)%Z as H3
    by (vm_compute; reflexivity).
  split; [exact H1|]. split; [exact H2|]. split; [exact H3|].
  exact (split_text_wide_overlap_never_returns (new 12 12) inputs.ten_words
           1000 H1 H2 H3).
Defined.

(** X4. With no overlap ([chunk_overlap <= 0 < chunk_size]) every
    iteration moves the offset forward, and [split_text] returns within
    [len text] iterations. *)
Theorem split_text_without_overlap_advances self text :
  (0 < chunk_size self)%Z -> (chunk_overlap self <= 0)%Z ->
  (forall start, (0 <= start < len text)%Z ->
                 (start < next_start self text start)%Z) /\
  exists chunks, split_text self text (Z.to_nat (len text)) = Some chunks.
Proof.
  intros Hsize Hoverlap.
  assert (forall start, (0 <= start < len text)%Z ->
                        (start < next_start self text start)%Z) as Hadv.
  { intros start [Hpos Hlt]. unfold next_start, cut_point.
    repeat match goal with
           | |- context [if ?b then _ else _] => destruct b eqn:?
           end; lia. }
  split; [exact Hadv|]. unfold split_text.
  destruct (len text <=? chunk_size self)%Z; [by eexists|].
  apply split_loop_returns; [exact Hadv|lia|lia].
Qed.

Lemma split_text_without_overlap_advances_witness :
  (0 < chunk_size (new 10 0))%Z /\ (chunk_overlap (new 10 0) <= 0)%Z /\
  (forall start, (0 <= start < len inputs.two_sentences)%Z ->
     (start < next_start (new 10 0) inputs.two_sentences start)%Z) /\
  exists chunks,
    split_text (new 10 0) inputs.two_sentences
      (Z.to_nat (len inputs.two_sentences)) = Some chunks.
Proof.
  assert (0 < chunk_size (new 10 0))%Z as H1 by (simpl; lia).
  assert (chunk_overlap (new 10 0) <= 0)%Z as H2 by (simpl; lia).
  split; [exact H1|]. split; [exact H2|].
  exact (split_text_without_overlap_advances (new 10 0) inputs.two_sentences
           H1 H2).
Defined.

(** *** Where the cut falls *)

Lemma rfind_from_sound sub s lo k i :
  rfind_from sub s lo k = Some i -> startswith (drop i s) sub = true.
Proof.
  induction k as [|k IH]; simpl; [done|].
  destruct (startswith (drop (lo + k) s) sub) eqn:E; [|done].
  by intros [= <-].
Qed.

Lemma rfind_from_complete sub s lo k j :
  (lo <= j < lo + k)%nat -> startswith (drop j s) sub = true ->
  exists i, rfind_from sub s lo k = Some i /\ (j <= i)%nat.
Proof.
  induction k as [|k IH]; intros Hj Hocc; [lia|]. simpl.
  destruct (startswith (drop (lo + k) s) sub) eqn:E.
  - exists (lo + k)%nat. split; [done|lia].
  - destruct (decide (j = lo + k)%nat) as [->|Hne]; [congruence|].
    apply IH; [lia|done].
Qed.

(** A hit of [rfind] is an occurrence. *)
Lemma rfind_sound s sub a b :
  (0 <= rfind s sub a b)%Z ->
  startswith (drop (Z.to_nat (rfind s sub a b)) s) sub = true.
Proof.
  unfold rfind. destruct (_ <=? _)%Z; [|lia].
  destruct (rfind_from _ _ _ _) as [i|] eqn:F; [|lia].
  intros _. rewrite Nat2Z.id. by apply rfind_from_sound in F.
Qed.

(** No occurrence inside the window lies to the right of the hit. *)
Lemma rfind_complete s sub a b j :
  (0 <= a)%Z -> (0 <= b <= len s)%Z ->
  (a <= j)%Z -> (j + len sub <= b)%Z ->
  startswith (drop (Z.to_nat j) s) sub = true ->
  (j <= rfind s sub a b)%Z.
Proof.
  intros Ha Hb Hj Hfit Hocc. unfold rfind, adjust.
  pose proof (len_nonneg sub) as Hsub.
  replace (a <? 0)%Z with false by (symmetry; apply Z.ltb_ge; lia).
  replace (b <? 0)%Z with false by (symmetry; apply Z.ltb_ge; lia).
  rewrite (Z.min_l b) by lia.
  assert (Z.min a (len s) = a) as -> by lia.
  replace (a + len sub <=? b)%Z with true by (symmetry; apply Z.leb_le; lia).
  destruct (rfind_from_complete sub s (Z.to_nat a)
              (Z.to_nat (b - len sub + 1 - a)) (Z.to_nat j))
    as (i & -> & Hi); [lia|done|lia].
Qed.

(** Without an occurrence anywhere, [rfind] answers [-1]. *)
Lemma rfind_absent s sub a b :
  (forall i, startswith (drop i s) sub = false) -> rfind s sub a b = (-1)%Z.
Proof.
  intros Habs. unfold rfind. destruct (_ <=? _)%Z; [|done].
  destruct (rfind_from _ _ _ _) as [i|] eqn:F; [|done].
  apply rfind_from_sound in F. by rewrite Habs in F.
Qed.

(** X5. The paragraph break has priority: when the window that begins at
    [start >= 0] does not reach the end of the text and holds a double
    line feed at an offset [p] strictly after [start], the cut point is a
    double line feed, at [p] or to the right of it, and not the hard cut
    at [start + chunk_size]. *)
Theorem cut_point_at_paragraph_break self text start p :
  (0 <= start)%Z ->
  (start + chunk_size self < len text)%Z ->
  (start < p)%Z -> (p + 2 <= start + chunk_size self)%Z ->
  startswith (drop (Z.to_nat p) text) [LF; LF] = true ->
  (p <= cut_point self text start <= start + chunk_size self - 2)%Z /\
  startswith (drop (Z.to_nat (cut_point self text start)) text) [LF; LF]
  = true.
Proof.
  intros Hstart Hend Hp Hfit Hocc. unfold cut_point.
  apply Z.ltb_lt in Hend as Hend'. rewrite Hend'. cbv zeta.
  pose proof (rfind_complete text [LF; LF] start (start + chunk_size self) p)
    as Hc.
  change (len [LF; LF]) with 2%Z in Hc.
  specialize (Hc ltac:(lia) ltac:(lia) ltac:(lia) ltac:(lia) Hocc).
  pose proof (rfind_range text [LF; LF] start (start + chunk_size self))
    as Hr.
  change (len [LF; LF]) with 2%Z in Hr.
  pose proof (rfind_sound text [LF; LF] start (start + chunk_size self))
    as Hs.
  set (r := rfind text [LF; LF] start (start + chunk_size self)) in *.
  replace (r >? start)%Z with true by (symmetry; apply Z.gtb_lt; lia).
  split; [|apply Hs; lia].
  unfold adjust in Hr.
  repeat match type of Hr with
         | context [if ?b then _ else _] => destruct b eqn:?
         end; lia.
Qed.

Lemma cut_point_at_paragraph_break_witness :
  (11 <= cut_point (new 20 5) inputs.two_paragraphs 0 <= 0 + 20 - 2)%Z /\
  startswith
    (drop (Z.to_nat (cut_point (new 20 5) inputs.two_paragraphs 0))
       inputs.two_paragraphs) [LF; LF] = true.
Proof.
  apply (cut_point_at_paragraph_break (new 20 5) inputs.two_paragraphs 0 11).
  - lia.
  - vm_compute. reflexivity.
  - lia.
  - simpl. lia.
  - vm_compute. reflexivity.
Defined.

Lemma startswith_absent s sub ch i :
  ch ∈ sub -> ch ∉ s -> startswith (drop i s) sub = false.
Proof.
  intros Hsub Hs. destruct (startswith (drop i s) sub) eqn:E; [|done].
  apply startswith_spec in E as [post E]. exfalso. apply Hs.
  rewrite <- (take_drop i s), E. set_solver.
Qed.

(** X27. The sentence end comes second: when the window that begins at
    [start >= 0] does not reach the end of the text, holds no double line
    feed after [start], and holds a period followed by a space at an
    offset [p] strictly after [start], the cut falls right after a period
    that is followed by a space, at [p + 1] or to the right of it. *)
Theorem cut_point_after_sentence self text start p :
  (0 <= start)%Z ->
  (start + chunk_size self < len text)%Z ->
  (forall q, (start < q)%Z -> (q + 2 <= start + chunk_size self)%Z ->
             startswith (drop (Z.to_nat q) text) [LF; LF] = false) ->
  (start < p)%Z -> (p + 2 <= start + chunk_size self)%Z ->
  startswith (drop (Z.to_nat p) text) (lit ". ") = true ->
  (p + 1 <= cut_point self text start <= start + chunk_size self - 1)%Z /\
  startswith (drop (Z.to_nat (cut_point self text start - 1)) text) (lit ". ")
  = true.
Proof.
  intros Hstart Hend Hnone Hp Hfit Hocc. unfold cut_point.
  apply Z.ltb_lt in Hend as Hend'. rewrite Hend'. cbv zeta.
  pose proof (rfind_range text [LF; LF] start (start + chunk_size self))
    as Hr1.
  pose proof (rfind_sound text [LF; LF] start (start + chunk_size self))
    as Hs1.
  change (len [LF; LF]) with 2%Z in Hr1.
  set (r1 := rfind text [LF; LF] start (start + chunk_size self)) in *.
  assert (r1 <= start)%Z as Hr1le.
  { destruct (Z.le_gt_cases r1 start) as [|Hgt]; [done|]. exfalso.
    assert (startswith (drop (Z.to_nat r1) text) [LF; LF] = true) as Hhit
      by (apply Hs1; lia).
    rewrite Hnone in Hhit; [done|lia|].
    unfold adjust in Hr1.
    repeat match type of Hr1 with
           | context [if ?b then _ else _] => destruct b eqn:?
           end; lia. }
  replace (r1 >? start)%Z with false
    by (symmetry; rewrite Z.gtb_ltb; apply Z.ltb_ge; lia).
  pose proof (rfind_complete text (lit ". ") start (start + chunk_size self) p)
    as Hc.
  change (len (lit ". ")) with 2%Z in Hc.
  specialize (Hc ltac:(lia) ltac:(lia) ltac:(lia) ltac:(lia) Hocc).
  pose proof (rfind_range text (lit ". ") start (start + chunk_size self))
    as Hr.
  change (len (lit ". ")) with 2%Z in Hr.
  pose proof (rfind_sound text (lit ". ") start (start + chunk_size self))
    as Hs.
  set (r := rfind text (lit ". ") start (start + chunk_size self)) in *.
  replace (r >? start)%Z with true by (symmetry; apply Z.gtb_lt; lia).
  replace (r + 1 - 1)%Z with r by lia.
  split; [|apply Hs; lia].
  unfold adjust in Hr.
  repeat match type of Hr with
         | context [if ?b then _ else _] => destruct b eqn:?
         end; lia.
Qed.

Lemma cut_point_after_sentence_witness :
  (19 + 1 <= cut_point (new 30 5) inputs.two_sentences 0 <= 0 + 30 - 1)%Z /\
  startswith
    (drop (Z.to_nat (cut_point (new 30 5) inputs.two_sentences 0 - 1))
       inputs.two_sentences) (lit ". ") = true.
Proof.
  apply (cut_point_after_sentence (new 30 5) inputs.two_sentences 0 19).
  - lia.
  - vm_compute. reflexivity.
  - intros q Hq _. apply (startswith_absent _ _ LF).
    + apply list_elem_of_In. simpl. auto.
    + apply (bool_decide_unpack _). vm_compute. exact I.
  - lia.
  - simpl. lia.
  - vm_compute. reflexivity.
Defined.

(** *** Hard cuts *)

Lemma strip_with_clean p s :
  Forall (fun ch => p ch = false) s -> strip_with p s = s.
Proof.
  intros H. unfold strip_with, rstrip_with.
  rewrite (lstrip_id p s) by (destruct H; done).
  rewrite lstrip_id; [apply reverse_involutive|].
  apply Forall_reverse in H. destruct H; done.
Qed.

Section hard_cuts.
Local Open Scope Z_scope.
Variable self : DocumentProcessor.
Variable text : str.
Hypothesis overlap_nonneg : 0 <= chunk_overlap self.
Hypothesis overlap_lt : chunk_overlap self < chunk_size self.
Hypothesis no_space : Forall (fun ch => isspace ch = false) text.

Lemma cut_point_hard start :
  0 <= start -> cut_point self text start = start + chunk_size self.
Proof.
  intros Hstart. unfold cut_point.
  assert (LF ∉ text) as Hlf.
  { intros Hin. rewrite Forall_forall in no_space.
    by apply no_space in Hin. }
  assert (32%N ∉ text) as Hsp.
  { intros Hin. rewrite Forall_forall in no_space.
    by apply no_space in Hin. }
  rewrite !rfind_absent.
  - replace (-1 >? start) with false by (symmetry; rewrite Z.gtb_ltb; apply Z.ltb_ge; lia).
    by destruct (_ <? _).
  - intros i. apply (startswith_absent _ _ 32%N); [|done].
    change (lit " ") with [32%N]. apply list_elem_of_In. simpl. auto.
  - intros i. apply (startswith_absent _ _ 32%N); [|done].
    change (lit ". ") with [46%N; 32%N]. apply list_elem_of_In. simpl. auto.
  - intros i. apply (startswith_absent _ _ LF); [|done].
    apply list_elem_of_In. simpl. auto.
Qed.

Lemma chunk_at_hard start :
  0 <= start < len text ->
  chunk_at self text start = slice text start (start + chunk_size self) /\
  truthy (chunk_at self text start) = true.
Proof.
  intros [Hstart Hlt]. unfold chunk_at. rewrite cut_point_hard by done.
  assert (strip (slice text start (start + chunk_size self))
          = slice text start (start + chunk_size self)) as ->.
  { apply strip_with_clean. unfold slice.
    by apply Forall_take, Forall_drop. }
  split; [done|].
  pose proof (len_slice text start (start + chunk_size self)) as Hlen.
  unfold adjust in Hlen.
  replace (start <? 0) with false in Hlen
    by (symmetry; apply Z.ltb_ge; lia).
  replace (start + chunk_size self <? 0) with false in Hlen
    by (symmetry; apply Z.ltb_ge; lia).
  destruct (slice text start (start + chunk_size self)); [|done].
  change (len []) with 0 in Hlen. lia.
Qed.

Lemma next_start_hard start :
  0 <= start ->
  next_start self text start =
  if start + chunk_size self <? len text
  then start + (chunk_size self - chunk_overlap self)
  else start + chunk_size self.
Proof.
  intros Hstart. unfold next_start. rewrite cut_point_hard by done.
  destruct (_ <? _); lia.
Qed.

Lemma split_loop_hard fuel :
  forall (k : nat) chunks,
    len text - Z.of_nat k * (chunk_size self - chunk_overlap self)
      <= Z.of_nat fuel ->
    exists m : nat,
      (Z.of_nat k * (chunk_size self - chunk_overlap self) < len text ->
       (0 < m)%nat /\
       len text <= (Z.of_nat k + Z.of_nat m - 1)
                   * (chunk_size self - chunk_overlap self)
                   + chunk_size self) /\
      split_loop self text fuel
        (Z.of_nat k * (chunk_size self - chunk_overlap self)) chunks
      = Some (chunks ++
              ((fun j : nat =>
                  slice text
                    (Z.of_nat j * (chunk_size self - chunk_overlap self))
                    (Z.of_nat j * (chunk_size self - chunk_overlap self)
                     + chunk_size self)) <$> seq k m)).
Proof.
  induction fuel as [|fuel IH]; intros k chunks Hfuel.
  - exists 0%nat. split; [lia|].
    rewrite split_loop_done by lia. by rewrite app_nil_r.
  - set (start := Z.of_nat k * (chunk_size self - chunk_overlap self)) in *.
    destruct (Z.lt_ge_cases start (len text)) as [Hlt|Hge].
    + assert (0 <= start) as Hpos by (unfold start; nia).
      rewrite split_loop_step by done.
      destruct (chunk_at_hard start (conj Hpos Hlt)) as [-> ->].
      rewrite next_start_hard by done.
      destruct (start + chunk_size self <? len text) eqn:E.
      * replace (start + (chunk_size self - chunk_overlap self))
          with (Z.of_nat (S k) * (chunk_size self - chunk_overlap self))
          by (unfold start; lia).
        apply Z.ltb_lt in E.
        destruct (IH (S k) (chunks ++ [slice text start (start + chunk_size self)]))
          as (m & Hm & ->); [unfold start in *; lia|].
        exists (S m). split; [|by rewrite <- app_assoc].
        intros _. destruct Hm as [Hm1 Hm2]; [unfold start in *; lia|].
        split; [lia|]. 
        replace (Z.of_nat k + Z.of_nat (S m) - 1)
          with (Z.of_nat (S k) + Z.of_nat m - 1) by lia.
        exact Hm2.
      * exists 1%nat. apply Z.ltb_ge in E. split.
        -- intros _. split; [lia|]. unfold start in E. lia.
        -- rewrite split_loop_done by lia. done.
    + exists 0%nat. split; [lia|].
      rewrite split_loop_done by lia. by rewrite app_nil_r.
Qed.

End hard_cuts.

(** X6. On a text without any white space, longer than [chunk_size], and
    with [0 <= chunk_overlap < chunk_size], [split_text] returns, and the
    chunks are the windows of [chunk_size] code points that begin every
    [chunk_size - chunk_overlap] code points: chunk [j] is
    [text[j*(size-overlap) : j*(size-overlap)+size]], and the last window
    reaches the end of the text. *)
Theorem split_text_hard_cuts self text :
  (0 <= chunk_overlap self)%Z ->
  (chunk_overlap self < chunk_size self)%Z ->
  (chunk_size self < len text)%Z ->
  Forall (fun ch => isspace ch = false) text ->
  exists m : nat,
    (0 < m)%nat /\
    (len text <= (Z.of_nat m - 1) * (chunk_size self - chunk_overlap self)
                 + chunk_size self)%Z /\
    split_text self text (Z.to_nat (len text))
    = Some ((fun j : nat =>
               slice text
                 (Z.of_nat j * (chunk_size self - chunk_overlap self))
                 (Z.of_nat j * (chunk_size self - chunk_overlap self)
                  + chunk_size self)%Z) <$> seq 0 m).
Proof.
  intros Hnonneg Hlt Hlong Hclean. unfold split_text.
  pose proof Hlong as E. apply Z.leb_gt in E as ->.
  destruct (split_loop_hard self text Hnonneg Hlt Hclean
              (Z.to_nat (len text)) 0 []) as (m & Hm & Hloop).
  - pose proof (len_nonneg text). lia.
  - destruct Hm as [Hm1 Hm2]; [lia|].
    exists m. split; [exact Hm1|]. split; [lia|]. exact Hloop.
Qed.

Lemma split_text_hard_cuts_witness :
  exists m : nat,
    (0 < m)%nat /\
    (len inputs.five_letters
     <= (Z.of_nat m - 1) * (chunk_size (new 10 3) - chunk_overlap (new 10 3))
        + chunk_size (new 10 3))%Z /\
    split_text (new 10 3) inputs.five_letters
      (Z.to_nat (len inputs.five_letters))
    = Some ((fun j : nat =>
               slice inputs.five_letters
                 (Z.of_nat j * (chunk_size (new 10 3)
                                - chunk_overlap (new 10 3)))
                 (Z.of_nat j * (chunk_size (new 10 3)
                                - chunk_overlap (new 10 3))
                  + chunk_size (new 10 3))%Z) <$> seq 0 m).
Proof.
  apply (split_text_hard_cuts (new 10 3) inputs.five_letters).
  - simpl. lia.
  - simpl. lia.
  - vm_compute. reflexivity.
  - apply (bool_decide_unpack _). vm_compute. exact I.
Defined.

(** ** The chunk assembler *)

Lemma documents_of_path_ok file_path chunks :
  batch_ok (documents_of_path file_path chunks).
Proof.
  intros i doc. unfold documents_of_path.
  rewrite list_lookup_imap, length_imap.
  destruct (chunks !! i) as [chunk|]; [|done].
  intros [= <-]. cbn [chunk_id metadata]. by simplify_map_eq.
Qed.

Lemma documents_of_upload_ok filename file_ext chunks :
  batch_ok (documents_of_upload filename file_ext chunks).
Proof.
  intros i doc. unfold documents_of_upload.
  rewrite list_lookup_imap, length_imap.
  destruct (chunks !! i) as [chunk|]; [|done].
  intros [= <-]. cbn [chunk_id metadata]. by simplify_map_eq.
Qed.

Lemma batch_ok_nil : batch_ok [].
Proof. intros i doc. by rewrite lookup_nil. Qed.

(** The chunk ids of a batch are 0, 1, ... in this order. *)
Lemma batch_ok_ids docs :
  batch_ok docs -> chunk_id <$> docs = Z.of_nat <$> seq 0 (length docs).
Proof.
  intros H. apply list_eq. intros i.
  rewrite !list_lookup_fmap.
  destruct (docs !! i) as [doc|] eqn:E.
  - destruct (H i doc E) as [Hid _].
    apply lookup_lt_Some in E. rewrite lookup_seq_lt by done.
    simpl. by rewrite Hid.
  - apply lookup_ge_None in E. by rewrite lookup_seq_ge.
Qed.

(** C6. A batch that [load_document] or [load_uploaded_file] returns for
    one source carries, at position [i], [chunk_id = chunk_index = i], and
    in every document [total_chunks] equal to the size of the batch; so
    the indices are exactly 0 .. total_chunks - 1. *)
Theorem batch_metadata_invariant fs lib self fuel docs :
  (exists file_path,
      load_document fs lib self fuel file_path = Some docs) \/
  (exists uploaded_file filename,
      load_uploaded_file lib self fuel uploaded_file filename = Some docs) ->
  batch_ok docs /\
  chunk_id <$> docs = Z.of_nat <$> seq 0 (length docs).
Proof.
  intros H. assert (batch_ok docs) as Hok; [|by auto using batch_ok_ids].
  destruct H as [[file_path H]|(uploaded_file & filename & H)].
  - unfold load_document in H.
    destruct (negb _); [injection H as <-; apply batch_ok_nil|].
    destruct (split_text _ _ _) as [chunks|]; [|done].
    injection H as <-. apply documents_of_path_ok.
  - unfold load_uploaded_file in H.
    destruct uploaded_file as [data|e]; [|injection H as <-; apply batch_ok_nil].
    destruct (negb _); [injection H as <-; apply batch_ok_nil|].
    destruct (split_text _ _ _) as [chunks|]; [|done].
    injection H as <-. apply documents_of_upload_ok.
Qed.

Lemma batch_metadata_invariant_witness :
  let docs := documents_of_path inputs.notes_txt inputs.ten_words_chunks in
  load_document inputs.notes_fs inputs.no_backends (new 12 2) 7
    inputs.notes_txt = Some docs /\
  batch_ok docs /\
  chunk_id <$> docs = Z.of_nat <$> seq 0 (length docs).
Proof.
  intros docs.
  assert (load_document inputs.notes_fs inputs.no_backends (new 12 2) 7
            inputs.notes_txt = Some docs) as H by (vm_compute; reflexivity).
  split; [exact H|].
  apply (batch_metadata_invariant inputs.notes_fs inputs.no_backends
           (new 12 2) 7 docs).
  left. exists inputs.notes_txt. exact H.
Defined.


(** ** The extractor *)

Lemma universal_newlines_id s : CR ∉ s -> universal_newlines s = s.
Proof.
  induction s as [|c s IH]; [done|].
  intros H. apply not_elem_of_cons in H as [Hc Hs].
  cbn [universal_newlines].
  destruct (c =? CR)%N eqn:E; [apply N.eqb_eq in E; congruence|].
  by rewrite IH.
Qed.

(** Where the two entry points do agree: the file can be read, the
    declared extension is the lower-cased suffix of the path, and the
    content is a PDF, DOCX or PPTX document, or text that does not decode
    or decodes without a carriage return. *)
Lemma extraction_agrees fs lib file_path data filename :
  read_bytes fs file_path = Return data ->
  let file_ext := lower (pathlib.suffix file_path) in
  file_ext = lit ".pdf" \/ file_ext = lit ".docx" \/ file_ext = lit ".pptx" \/
  (forall decoded, utf8 data = Some decoded -> CR ∉ decoded) ->
  _extract_content fs lib file_path
  = _extract_content_from_bytes lib data file_ext filename.
Proof.
  intros Hread file_ext Hcase.
  unfold _extract_content, _extract_content_from_bytes. fold file_ext.
  unfold str_eqb. repeat case_bool_decide.
  - unfold _extract_pdf, _extract_pdf_from_bytes. rewrite Hread.
    destruct (pdfplumber lib), (PyPDF2 lib); reflexivity.
  - unfold _extract_docx, _extract_docx_from_bytes. rewrite Hread.
    destruct (docx lib); reflexivity.
  - unfold _extract_pptx, _extract_pptx_from_bytes. rewrite Hread.
    destruct (pptx lib); reflexivity.
  - destruct Hcase as [?|[?|[?|Hcr]]]; [done..|].
    rewrite Hread. unfold decode_utf8. cbn [bind].
    destruct (utf8 data) as [decoded|] eqn:E; cbn [bind or_empty]; [|done].
    by rewrite universal_newlines_id by auto.
Qed.

(** C7, at the content ["a\r\nb"] and the extension [".txt"]: read from a
    path the text is ["a\nb"], read from the buffer it is ["a\r\nb"]. *)
Theorem extraction_differs_on_carriage_return lib :
  let fs := inputs.one_file inputs.notes_txt inputs.crlf_bytes in
  read_bytes fs inputs.notes_txt = Return inputs.crlf_bytes /\
  lower (pathlib.suffix inputs.notes_txt) = lit ".txt" /\
  _extract_content fs lib inputs.notes_txt = lit "a" ++ [LF] ++ lit "b" /\
  _extract_content_from_bytes lib inputs.crlf_bytes (lit ".txt")
    inputs.notes_txt = lit "a" ++ [CR; LF] ++ lit "b".
Proof. repeat split; vm_compute; reflexivity. Qed.

(** ** Change matching *)

Lemma matches_changed_spec doc changed_files :
  matches_changed doc changed_files = true <->
  exists changed_file pre post,
    changed_file ∈ changed_files /\
    source doc = pre ++ changed_file ++ post.
Proof.
  induction changed_files as [|c rest IH]; cbn [matches_changed].
  - split; [done|]. intros (? & ? & ? & H & _). by apply elem_of_nil in H.
  - destruct (contains (source doc) c) eqn:E.
    + split; [|done]. intros _.
      apply contains_spec in E as (pre & post & E).
      exists c, pre, post. split; [left|done].
    + rewrite IH. split.
      * intros (c' & pre & post & Hin & Hsrc). exists c', pre, post.
        split; [by right|done].
      * intros (c' & pre & post & Hin & Hsrc).
        apply elem_of_cons in Hin as [->|Hin].
        -- assert (contains (source doc) c = true) as E'
             by (apply contains_spec; eauto).
           congruence.
        -- eauto 6.
Qed.

(** What the filter does select: the documents, in their order, whose
    source has one of the changed-file identifiers somewhere inside it. *)
Lemma filter_changed_documents_spec all_docs changed_files doc :
  doc ∈ filter_changed_documents all_docs changed_files <->
  doc ∈ all_docs /\
  exists changed_file pre post,
    changed_file ∈ changed_files /\
    source doc = pre ++ changed_file ++ post.
Proof.
  rewrite <- matches_changed_spec.
  induction all_docs as [|d rest IH]; cbn [filter_changed_documents].
  - split; [intros H|intros [H _]]; by apply elem_of_nil in H.
  - destruct (matches_changed d changed_files) eqn:E.
    + rewrite !elem_of_cons. split.
      * intros [->|H]; [by split; [left|]|].
        apply IH in H as [? ?]. by split; [right|].
      * intros [[->|H] Hm]; [by left|]. right. by apply IH.
    + rewrite elem_of_cons. split.
      * intros H. apply IH in H as [? ?]. by split; [right|].
      * intros [[->|H] Hm]; [congruence|]. by apply IH.
Qed.

(** C2, at the change-set [["docs/api.md"]]: the chunk of
    [legacy/docs/api.md] is selected along with the chunk of
    [docs/api.md], although its source is another file, whose path only
    ends with the changed identifier. *)
Theorem filter_changed_documents_selects_by_substring :
  filter_changed_documents
    [inputs.legacy_doc; inputs.api_doc; inputs.guide_doc]
    [lit "docs/api.md"]
  = [inputs.legacy_doc; inputs.api_doc] /\
  source inputs.legacy_doc = lit "docs_repo/legacy/" ++ lit "docs/api.md" /\
  source inputs.api_doc = lit "docs_repo/" ++ lit "docs/api.md" /\
  source inputs.legacy_doc <> source inputs.api_doc /\
  source inputs.legacy_doc <> lit "docs/api.md".
Proof. repeat split; vm_compute; congruence. Qed.


(** ** The extractor and the assembler: sources, contents, failures *)

(** X7. Where the two entry points agree: for a file that can be read,
    extraction from the path and extraction from a buffer with the same
    bytes, declared under the lower-cased suffix of the path, give the
    same text when the file is a PDF, DOCX or PPTX document, and when it
    is text that does not decode or decodes without a carriage return. *)
Theorem path_and_buffer_extraction_agree fs lib file_path data filename :
  read_bytes fs file_path = Return data ->
  lower (pathlib.suffix file_path) = lit ".pdf" \/
  lower (pathlib.suffix file_path) = lit ".docx" \/
  lower (pathlib.suffix file_path) = lit ".pptx" \/
  (forall decoded, utf8 data = Some decoded -> CR ∉ decoded) ->
  _extract_content fs lib file_path
  = _extract_content_from_bytes lib data (lower (pathlib.suffix file_path))
      filename.
Proof. intros Hread Hcase. by apply extraction_agrees. Qed.

Lemma path_and_buffer_extraction_agree_witness :
  _extract_content inputs.report_fs inputs.one_page inputs.report_pdf
  = _extract_content_from_bytes inputs.one_page
      (inputs.ascii_bytes "%PDF-1.7")
      (lower (pathlib.suffix inputs.report_pdf)) (lit "report.pdf").
Proof.
  apply (path_and_buffer_extraction_agree inputs.report_fs inputs.one_page
           inputs.report_pdf (inputs.ascii_bytes "%PDF-1.7")
           (lit "report.pdf")).
  - reflexivity.
  - left. vm_compute. reflexivity.
Defined.

Lemma _extract_content_unreadable fs lib file_path e :
  read_bytes fs file_path = Raise e -> _extract_content fs lib file_path = [].
Proof.
  intros Hread. unfold _extract_content, str_eqb. repeat case_bool_decide.
  - unfold _extract_pdf. rewrite Hread.
    destruct (pdfplumber lib), (PyPDF2 lib), e; reflexivity.
  - unfold _extract_docx. rewrite Hread. destruct (docx lib); reflexivity.
  - unfold _extract_pptx. rewrite Hread. destruct (pptx lib); reflexivity.
  - rewrite Hread. reflexivity.
Qed.

(** X8. A file that cannot be read gives the empty batch, whatever its
    extension and whatever libraries are installed; so does a text file
    that is empty or is not valid UTF-8. Nothing is raised and nothing is
    chunked. *)
Theorem load_document_without_content fs lib self fuel file_path :
  (exists e, read_bytes fs file_path = Raise e) \/
  (lower (pathlib.suffix file_path) <> lit ".pdf" /\
   lower (pathlib.suffix file_path) <> lit ".docx" /\
   lower (pathlib.suffix file_path) <> lit ".pptx" /\
   exists data, read_bytes fs file_path = Return data /\
                (data = [] \/ utf8 data = None)) ->
  load_document fs lib self fuel file_path = Some [].
Proof.
  intros H. unfold load_document.
  assert (_extract_content fs lib file_path = []) as ->; [|done].
  destruct H as [[e He] | (H1 & H2 & H3 & data & Hread & Hdata)].
  - by eapply _extract_content_unreadable.
  - unfold _extract_content, str_eqb.
    rewrite !bool_decide_eq_false_2 by done.
    rewrite Hread. unfold decode_utf8. cbn [bind].
    destruct Hdata as [-> | ->]; reflexivity.
Qed.

Lemma load_document_without_content_witness :
  load_document inputs.notes_fs inputs.no_backends default_processor 0
    (lit "missing.docx") = Some [].
Proof.
  apply (load_document_without_content inputs.notes_fs inputs.no_backends
           default_processor 0 (lit "missing.docx")).
  left. exists (OtherException "FileNotFoundError"). reflexivity.
Defined.

Lemma content_documents_of_path file_path chunks :
  content <$> documents_of_path file_path chunks = chunks.
Proof.
  apply list_eq. intros i. unfold documents_of_path.
  rewrite list_lookup_fmap, list_lookup_imap.
  by destruct (chunks !! i).
Qed.


Lemma documents_of_path_source file_path chunks :
  Forall (fun doc =>
            source doc = file_path /\
            metadata doc !! "file_name"%string
              = Some (VStr (pathlib.name file_path)) /\
            metadata doc !! "file_type"%string
              = Some (VStr (pathlib.suffix file_path)) /\
            metadata doc !! "upload_type"%string = None)
    (documents_of_path file_path chunks).
Proof.
  apply Forall_lookup. intros i doc. unfold documents_of_path.
  rewrite list_lookup_imap. destruct (chunks !! i); [|done].
  intros [= <-]. cbn [source metadata]. by simplify_map_eq.
Qed.


(** X9. The batch of [load_document] wraps the chunks of the segmenter
    one for one and in their order: either the extracted text is empty
    and so is the batch, or the contents of the batch are exactly what
    [split_text] returned for the extracted text. Every document names
    the path as its source, carries the name and the suffix of the path,
    and has no [upload_type]. *)
Theorem load_document_wraps_chunks fs lib self fuel file_path docs :
  load_document fs lib self fuel file_path = Some docs ->
  (_extract_content fs lib file_path = [] /\ docs = [] \/
   split_text self (_extract_content fs lib file_path) fuel
   = Some (content <$> docs)) /\
  Forall (fun doc =>
            source doc = file_path /\
            metadata doc !! "file_name"%string
              = Some (VStr (pathlib.name file_path)) /\
            metadata doc !! "file_type"%string
              = Some (VStr (pathlib.suffix file_path)) /\
            metadata doc !! "upload_type"%string = None) docs.
Proof.
  unfold load_document.
  destruct (_extract_content fs lib file_path) as [|c text] eqn:E;
    cbn [truthy negb].
  - intros [= <-]. split; [by left|done].
  - destruct (split_text self (c :: text) fuel) as [chunks|]; [|done].
    intros [= <-]. split.
    + right. by rewrite content_documents_of_path.
    + apply documents_of_path_source.
Qed.

Lemma load_document_wraps_chunks_witness :
  let docs := documents_of_path inputs.notes_txt inputs.ten_words_chunks in
  load_document inputs.notes_fs inputs.no_backends (new 12 2) 7
    inputs.notes_txt = Some docs /\
  (_extract_content inputs.notes_fs inputs.no_backends inputs.notes_txt = []
   /\ docs = [] \/
   split_text (new 12 2)
     (_extract_content inputs.notes_fs inputs.no_backends inputs.notes_txt) 7
   = Some (content <$> docs)) /\
  Forall (fun doc =>
            source doc = inputs.notes_txt /\
            metadata doc !! "file_name"%string
              = Some (VStr (pathlib.name inputs.notes_txt)) /\
            metadata doc !! "file_type"%string
              = Some (VStr (pathlib.suffix inputs.notes_txt)) /\
            metadata doc !! "upload_type"%string = None) docs.
Proof.
  intros docs.
  assert (load_document inputs.notes_fs inputs.no_backends (new 12 2) 7
            inputs.notes_txt = Some docs) as H by (vm_compute; reflexivity).
  split; [exact H|].
  exact (load_document_wraps_chunks inputs.notes_fs inputs.no_backends
           (new 12 2) 7 inputs.notes_txt docs H).
Defined.



(** *** The directory scan *)

Lemma load_document_sources fs lib self fuel file_path docs :
  load_document fs lib self fuel file_path = Some docs ->
  Forall (fun doc => source doc = file_path) docs.
Proof.
  unfold load_document. destruct (negb _); [by intros [= <-]|].
  destruct (split_text _ _ _) as [chunks|]; [|done]. intros [= <-].
  eapply Forall_impl; [apply documents_of_path_source|].
  by intros doc [? _].
Qed.

Lemma load_files_sources fs lib self fuel files :
  forall documents out,
    load_files fs lib self fuel files documents = Some out ->
    exists new,
      out = documents ++ new /\
      Forall (fun doc =>
                is_file fs (source doc) = true /\
                pathlib.suffix (source doc) ∈ supported_extensions self /\
                source doc ∈ files) new.
Proof.
  induction files as [|file_path files IH]; intros documents out;
    cbn [load_files].
  - intros [= <-]. exists []. by rewrite app_nil_r.
  - destruct (is_file fs file_path) eqn:Hfile; cbn [andb].
    + case_bool_decide as Hext.
      * destruct (load_document fs lib self fuel file_path) as [docs|] eqn:Hd;
          [|done].
        cbn. intros H. apply IH in H as (new & -> & Hnew).
        exists (docs ++ new). split; [by rewrite app_assoc|].
        apply Forall_app. split.
        -- apply load_document_sources in Hd.
           eapply Forall_impl; [exact Hd|]. intros doc ->.
           split; [done|]. split; [done|]. left.
        -- eapply Forall_impl; [exact Hnew|].
           intros doc (? & ? & ?). split; [done|]. split; [done|]. by right.
      * intros H. apply IH in H as (new & -> & Hnew). exists new.
        split; [done|]. eapply Forall_impl; [exact Hnew|].
        intros doc (? & ? & ?). split; [done|]. split; [done|]. by right.
    + intros H. apply IH in H as (new & -> & Hnew). exists new.
      split; [done|]. eapply Forall_impl; [exact Hnew|].
      intros doc (? & ? & ?). split; [done|]. split; [done|]. by right.
Qed.

(** X11. Whatever [load_documents_from_directory] returns comes from the
    scan: the source of every document is a path that [rglob] listed,
    that is a regular file, and whose suffix, compared as it is written,
    is one of the supported extensions. *)
Theorem load_documents_from_directory_sources fs lib self fuel directory docs :
  load_documents_from_directory fs lib self fuel directory
  = Some (Return docs) ->
  Forall (fun doc =>
            is_file fs (source doc) = true /\
            pathlib.suffix (source doc) ∈ supported_extensions self /\
            exists files, rglob fs directory = Return files /\
                          source doc ∈ files) docs.
Proof.
  unfold load_documents_from_directory.
  destruct (negb _); [by intros [= <-]|].
  destruct (rglob fs directory) as [files|e] eqn:Hscan; [|done].
  destruct (load_files fs lib self fuel files []) as [out|] eqn:Hload; [|done].
  cbn. intros [= <-].
  apply load_files_sources in Hload as (new & -> & Hnew).
  eapply Forall_impl; [exact Hnew|].
  intros doc (? & ? & ?). eauto.
Qed.

Lemma load_documents_from_directory_sources_witness :
  exists docs,
    load_documents_from_directory inputs.report_fs inputs.one_page
      (new 12 2) 10 (lit "docs_repo") = Some (Return docs) /\
    length docs = 6%nat /\
    Forall (fun doc =>
              is_file inputs.report_fs (source doc) = true /\
              pathlib.suffix (source doc) ∈ supported_extensions (new 12 2) /\
              exists files,
                rglob inputs.report_fs (lit "docs_repo") = Return files /\
                source doc ∈ files) docs.
Proof.
  eexists. split; [vm_compute; reflexivity|]. split; [reflexivity|].
  apply (load_documents_from_directory_sources inputs.report_fs
           inputs.one_page (new 12 2) 10 (lit "docs_repo")).
  vm_compute. reflexivity.
Defined.

(** ** Change matching: edges and algebra *)

Lemma filter_changed_documents_app docs1 docs2 changed_files :
  filter_changed_documents (docs1 ++ docs2) changed_files
  = filter_changed_documents docs1 changed_files
    ++ filter_changed_documents docs2 changed_files.
Proof.
  induction docs1 as [|doc docs1 IH]; cbn [filter_changed_documents app];
    [done|].
  destruct (matches_changed doc changed_files); by rewrite IH.
Qed.

(** X12. What the filter selects: a document of the list is selected if
    and only if one of the changed-file identifiers occurs somewhere
    inside its source. *)
Theorem filter_changed_documents_iff_substring all_docs changed_files doc :
  doc ∈ filter_changed_documents all_docs changed_files <->
  doc ∈ all_docs /\
  exists changed_file pre post,
    changed_file ∈ changed_files /\
    source doc = pre ++ changed_file ++ post.
Proof. apply filter_changed_documents_spec. Qed.

(** X13. The edges of the change-set: with no changed file nothing is
    selected, and an empty identifier among the changed files selects
    every document, since the empty string occurs in every source. *)
Theorem filter_changed_documents_edges all_docs changed_files :
  filter_changed_documents all_docs [] = [] /\
  ([] ∈ changed_files ->
   filter_changed_documents all_docs changed_files = all_docs).
Proof.
  split.
  - induction all_docs as [|doc rest IH]; cbn [filter_changed_documents];
      done.
  - intros Hin.
    induction all_docs as [|doc rest IH]; cbn [filter_changed_documents];
      [done|].
    assert (matches_changed doc changed_files = true) as ->.
    { apply matches_changed_spec. exists [], [], (source doc).
      split; done. }
    by rewrite IH.
Qed.

(** X14. The selection keeps the order of the documents (it is a
    sublist), works document by document (it distributes over the
    concatenation of two lists), and selecting again with the same
    change-set changes nothing. *)
Theorem filter_changed_documents_sublist docs1 docs2 changed_files :
  filter_changed_documents docs1 changed_files `sublist_of` docs1 /\
  filter_changed_documents (docs1 ++ docs2) changed_files
  = filter_changed_documents docs1 changed_files
    ++ filter_changed_documents docs2 changed_files /\
  filter_changed_documents (filter_changed_documents docs1 changed_files)
    changed_files
  = filter_changed_documents docs1 changed_files.
Proof.
  split; [|split; [apply filter_changed_documents_app|]].
  - induction docs1 as [|doc rest IH]; cbn [filter_changed_documents];
      [done|].
    destruct (matches_changed doc changed_files);
      [by apply sublist_skip|by apply sublist_cons].
  - induction docs1 as [|doc rest IH]; cbn [filter_changed_documents];
      [done|].
    destruct (matches_changed doc changed_files) eqn:E; [|done].
    cbn [filter_changed_documents]. by rewrite E, IH.
Qed.

(** ** The synchronizer *)

Section synchronizer.
Context {GitWatcher RAGSystem timestamp : Type}.
Variable watcher_check_for_updates : GitWatcher -> result bool * GitWatcher.
Variable watcher_pull_updates : GitWatcher -> result bool * GitWatcher.
Variable watcher_get_changed_files
  : GitWatcher -> result (list str) * GitWatcher.
Variable working_tree : GitWatcher -> FileSystem.
Variable rag_remove_documents : list str -> RAGSystem -> result unit * RAGSystem.
Variable rag_index_documents
  : list Document -> RAGSystem -> result unit * RAGSystem.
Variable lib : Backends.
Variable DOCS_REPO_PATH : pathlib.Path.

(** C3. In a cycle whose pull step fails, by answering [False] or by
    raising, [check_for_updates] returns [False]; the index is the one
    the cycle started with, no call was issued against it, and
    [last_update] is as it was. *)
Theorem pull_failure_aborts_cycle fuel now st w w1 w2 pulled :
  app.git_watcher st = Some w ->
  watcher_check_for_updates w = (Return true, w1) ->
  watcher_pull_updates w1 = (pulled, w2) ->
  pulled <> Return true ->
  exists st',
    app.check_for_updates GitWatcher RAGSystem timestamp
      watcher_check_for_updates watcher_pull_updates
      watcher_get_changed_files working_tree
      rag_remove_documents rag_index_documents lib DOCS_REPO_PATH
      fuel now st = Some (Return false, st') /\
    app.rag st' = app.rag st /\
    app.issued st' = app.issued st /\
    app.last_update st' = app.last_update st.
Proof.
  intros Hw Hcheck Hpull Hfail.
  unfold app.check_for_updates, app.has_watcher, app.try_, app.on_watcher,
    mbind, app.M_bind, mret, app.M_ret, app.st_error.
  rewrite Hw. rewrite bool_decide_eq_true_2 by eauto.
  cbv beta iota. rewrite Hw, Hcheck.
  cbv beta iota. cbn [app.git_watcher]. rewrite Hpull.
  destruct pulled as [[]|e]; [done| |]; eexists; (split; [reflexivity|done]).
Qed.

End synchronizer.

Lemma pull_failure_aborts_cycle_witness :
  exists st',
    app.check_for_updates nat inputs.Index Z
      inputs.failing_check inputs.failing_pull inputs.failing_changed_files
      (fun _ => inputs.notes_fs) inputs.removeDocuments inputs.indexDocuments
      inputs.no_backends (lit "docs_repo") 0 0%Z inputs.session
    = Some (Return false, st') /\
    app.rag st' = app.rag inputs.session /\
    app.issued st' = app.issued inputs.session /\
    app.last_update st' = app.last_update inputs.session.
Proof.
  apply (pull_failure_aborts_cycle
           inputs.failing_check inputs.failing_pull
           inputs.failing_changed_files (fun _ => inputs.notes_fs)
           inputs.removeDocuments inputs.indexDocuments inputs.no_backends
           (lit "docs_repo") 0 0%Z inputs.session
           0%nat 1%nat 2%nat (Return false)).
  - reflexivity.
  - reflexivity.
  - reflexivity.
  - discriminate.
Defined.


(** ** The synchronizer: the other ways through a cycle *)

Section cycles.
Context {GitWatcher RAGSystem timestamp : Type}.
Variable watcher_check_for_updates : GitWatcher -> result bool * GitWatcher.
Variable watcher_pull_updates : GitWatcher -> result bool * GitWatcher.
Variable watcher_get_changed_files
  : GitWatcher -> result (list str) * GitWatcher.
Variable working_tree : GitWatcher -> FileSystem.
Variable rag_remove_documents : list str -> RAGSystem -> result unit * RAGSystem.
Variable rag_index_documents
  : list Document -> RAGSystem -> result unit * RAGSystem.
Variable lib : Backends.
Variable DOCS_REPO_PATH : pathlib.Path.

(** X15. When the session has no watcher, or the watcher reports no
    change, or its check raises, the cycle returns [False] and stops
    there: nothing is pulled (the watcher is as the check left it), no
    call is issued against the index, and [last_update] stays. Without a
    watcher the session is not touched at all. *)
Theorem cycle_without_change fuel now st :
  app.git_watcher st = None \/
  (exists w checked w1,
      app.git_watcher st = Some w /\
      watcher_check_for_updates w = (checked, w1) /\
      checked <> Return true) ->
  exists st',
    app.check_for_updates GitWatcher RAGSystem timestamp
      watcher_check_for_updates watcher_pull_updates
      watcher_get_changed_files working_tree
      rag_remove_documents rag_index_documents lib DOCS_REPO_PATH
      fuel now st = Some (Return false, st') /\
    app.rag st' = app.rag st /\
    app.issued st' = app.issued st /\
    app.last_update st' = app.last_update st /\
    match app.git_watcher st with
    | None => st' = st
    | Some w => app.git_watcher st' = Some (snd (watcher_check_for_updates w))
    end.
Proof.
  intros H.
  unfold app.check_for_updates, app.has_watcher, app.try_, app.on_watcher,
    mbind, app.M_bind, mret, app.M_ret, app.st_error.
  destruct H as [Hw | (w & checked & w1 & Hw & Hcheck & Hfail)]; rewrite Hw.
  - rewrite bool_decide_eq_false_2 by (by intros [? ?]).
    exists st. done.
  - rewrite bool_decide_eq_true_2 by eauto.
    cbv beta iota. rewrite Hw, Hcheck.
    destruct checked as [[]|e]; [done| |]; eexists; (split; [reflexivity|done]).
Qed.

(** X16. A cycle in which every step succeeds issues exactly two calls
    against the index, in this order: [remove_documents] with the changed
    files, then [index_documents] with the documents of the fresh scan
    that the change matching selects. It returns [True] and sets
    [last_update] to the time read. *)
Theorem cycle_removes_then_adds fuel now st w w1 w2 w3 changed_files rag1 rag2
  docs :
  app.git_watcher st = Some w ->
  watcher_check_for_updates w = (Return true, w1) ->
  watcher_pull_updates w1 = (Return true, w2) ->
  watcher_get_changed_files w2 = (Return changed_files, w3) ->
  rag_remove_documents changed_files (app.rag st) = (Return tt, rag1) ->
  load_documents_from_directory (working_tree w3) lib (app.processor st) fuel
    DOCS_REPO_PATH = Some (Return docs) ->
  rag_index_documents (filter_changed_documents docs changed_files) rag1
  = (Return tt, rag2) ->
  exists st',
    app.check_for_updates GitWatcher RAGSystem timestamp
      watcher_check_for_updates watcher_pull_updates
      watcher_get_changed_files working_tree
      rag_remove_documents rag_index_documents lib DOCS_REPO_PATH
      fuel now st = Some (Return true, st') /\
    app.rag st' = rag2 /\
    app.issued st' =
      app.issued st ++
      [app.remove_documents changed_files;
       app.index_documents (filter_changed_documents docs changed_files)] /\
    app.last_update st' = Some now /\
    app.git_watcher st' = Some w3.
Proof.
  intros Hw Hcheck Hpull Hfiles Hremove Hload Hindex.
  unfold app.check_for_updates, app.has_watcher, app.try_, app.on_watcher,
    app.on_rag, app.load_repo, app.set_last_update,
    mbind, app.M_bind, mret, app.M_ret, app.st_error.
  rewrite Hw. rewrite bool_decide_eq_true_2 by eauto.
  cbv beta iota. rewrite Hw, Hcheck.
  cbv beta iota. cbn [app.git_watcher]. rewrite Hpull.
  cbv beta iota. cbn [app.git_watcher]. rewrite Hfiles.
  cbv beta iota. cbn [app.rag]. rewrite Hremove.
  cbv beta iota. cbn [app.git_watcher app.processor]. rewrite Hload.
  cbv beta iota. cbn [app.rag]. rewrite Hindex.
  cbv beta iota. eexists. split; [reflexivity|].
  cbn. by rewrite <- app_assoc.
Qed.

(** X17. However a cycle that finishes went, it returns [True] or
    [False] and raises nothing. The calls it issued against the index are
    none, or one [remove_documents], or that [remove_documents] followed
    by one [index_documents] of documents selected for the same changed
    files: nothing is added that was not removed first. [last_update] is
    set exactly when the cycle returns [True], which takes both calls;
    the processor is never replaced. *)
Theorem cycle_outcome fuel now st r st' :
  app.check_for_updates GitWatcher RAGSystem timestamp
      watcher_check_for_updates watcher_pull_updates
      watcher_get_changed_files working_tree
      rag_remove_documents rag_index_documents lib DOCS_REPO_PATH
      fuel now st = Some (r, st') ->
  exists (b : bool) calls,
    r = Return b /\
    app.issued st' = app.issued st ++ calls /\
    (calls = [] \/
     (exists changed_files,
         calls = [app.remove_documents changed_files] /\ b = false) \/
     (exists changed_files docs,
         calls = [app.remove_documents changed_files;
                  app.index_documents
                    (filter_changed_documents docs changed_files)])) /\
    (if b then app.last_update st' = Some now /\ length calls = 2%nat
     else app.last_update st' = app.last_update st) /\
    app.processor st' = app.processor st.
Proof.
  unfold app.check_for_updates, app.has_watcher, app.try_, app.on_watcher,
    app.on_rag, app.load_repo, app.set_last_update,
    mbind, app.M_bind, mret, app.M_ret, app.st_error.
  intros H.
  repeat
    (match type of H with
     | context [match ?x with _ => _ end] =>
         lazymatch x with
         | context [match _ with _ => _ end] => fail
         | _ => destruct x eqn:?
         end
     | context [if ?x then _ else _] =>
         lazymatch x with
         | context [match _ with _ => _ end] => fail
         | _ => destruct x eqn:?
         end
     end; cbn beta iota zeta in H; cbn [app.git_watcher app.rag app.processor
                                      app.issued app.last_update] in H);
    try discriminate; injection H as <- <-; cbn;
    first
      [ exists false, []; rewrite ?app_nil_r; by auto 10
      | exists true; eexists; rewrite <- ?app_assoc;
        split; [done|]; split; [done|]; split; [by eauto 10|done]
      | exists false; eexists; rewrite <- ?app_assoc;
        split; [done|]; split; [done|]; split; [by eauto 10|done] ].
Qed.

End cycles.

Lemma cycle_without_change_witness :
  exists st',
    app.check_for_updates nat inputs.Index Z
      inputs.idle_check inputs.good_pull inputs.good_changed_files
      (fun _ => inputs.report_fs) inputs.removeDocuments inputs.indexDocuments
      inputs.one_page (lit "docs_repo") 10 5%Z inputs.synced_session
    = Some (Return false, st') /\
    app.rag st' = app.rag inputs.synced_session /\
    app.issued st' = app.issued inputs.synced_session /\
    app.last_update st' = app.last_update inputs.synced_session /\
    app.git_watcher st' = Some 1%nat.
Proof.
  apply (cycle_without_change
           inputs.idle_check inputs.good_pull inputs.good_changed_files
           (fun _ => inputs.report_fs) inputs.removeDocuments
           inputs.indexDocuments inputs.one_page (lit "docs_repo")
           10 5%Z inputs.synced_session).
  right. exists 0%nat, (Return false), 1%nat.
  split; [reflexivity|]. split; [reflexivity|discriminate].
Defined.

Lemma cycle_removes_then_adds_witness :
  exists st',
    app.check_for_updates nat inputs.Index Z
      inputs.failing_check inputs.good_pull inputs.good_changed_files
      (fun _ => inputs.report_fs) inputs.removeDocuments inputs.indexDocuments
      inputs.one_page (lit "docs_repo") 10 5%Z inputs.synced_session
    = Some (Return true, st') /\
    length (app.issued st') = 2%nat /\
    app.last_update st' = Some 5%Z /\
    app.git_watcher st' = Some 3%nat.
Proof.
  edestruct (cycle_removes_then_adds
               inputs.failing_check inputs.good_pull inputs.good_changed_files
               (fun _ => inputs.report_fs) inputs.removeDocuments
               inputs.indexDocuments inputs.one_page (lit "docs_repo")
               10 5%Z inputs.synced_session 0%nat 1%nat 2%nat 3%nat)
    as (st' & Hrun & _ & Hissued & Hlast & Hw).
  - reflexivity.
  - reflexivity.
  - reflexivity.
  - reflexivity.
  - vm_compute. reflexivity.
  - vm_compute. reflexivity.
  - vm_compute. reflexivity.
  - exists st'. split; [exact Hrun|].
    split; [by rewrite Hissued|]. split; [exact Hlast|exact Hw].
Defined.

Lemma cycle_outcome_witness :
  exists r st',
    app.check_for_updates nat inputs.Index Z
      inputs.failing_check inputs.failing_pull inputs.failing_changed_files
      (fun _ => inputs.report_fs) inputs.removeDocuments inputs.indexDocuments
      inputs.one_page (lit "docs_repo") 10 5%Z inputs.synced_session
    = Some (r, st') /\
    exists (b : bool) calls,
      r = Return b /\
      app.issued st' = app.issued inputs.synced_session ++ calls /\
      (calls = [] \/
       (exists changed_files,
           calls = [app.remove_documents changed_files] /\ b = false) \/
       (exists changed_files docs,
           calls = [app.remove_documents changed_files;
                    app.index_documents
                      (filter_changed_documents docs changed_files)])) /\
      (if b then app.last_update st' = Some 5%Z /\ length calls = 2%nat
       else app.last_update st' = app.last_update inputs.synced_session) /\
      app.processor st' = app.processor inputs.synced_session.
Proof.
  eexists _, _. split; [vm_compute; reflexivity|].
  apply (cycle_outcome
           inputs.failing_check inputs.failing_pull inputs.failing_changed_files
           (fun _ => inputs.report_fs) inputs.removeDocuments
           inputs.indexDocuments inputs.one_page (lit "docs_repo")
           10 5%Z inputs.synced_session).
  vm_compute. reflexivity.
Defined.

(** ** The ingestors *)

Import upload_handlers.

Lemma or_None_returns {A} (body : result A) :
  exists path, or_None body = Return path.
Proof. destruct body; eexists; reflexivity. Qed.

(** No exception leaves any of the three handlers: each returns a path
    or [None]. *)
Lemma handlers_never_raise env :
  (forall repo_url target_dir,
      exists path, GitHubRepoHandler.clone_repo env repo_url target_dir
                   = Return path) /\
  (forall drive_url output_path,
      exists path, GoogleDriveHandler.download_file env drive_url output_path
                   = Return path) /\
  (forall dropbox_url output_path,
      exists path, DropboxHandler.download_file env dropbox_url output_path
                   = Return path).
Proof.
  repeat split; intros.
  - apply or_None_returns.
  - unfold GoogleDriveHandler.download_file, try_except.
    destruct (_ ≫= _); eexists; reflexivity.
  - apply or_None_returns.
Qed.

(** The Dropbox handler looks at the status of the response: a 4xx or
    5xx answer makes it return [None]. *)
Lemma dropbox_checks_status env dropbox_url output_path response :
  (forall url, http_get env url [] = Return response) ->
  (400 <= status_code response < 600)%Z ->
  DropboxHandler.download_file env dropbox_url output_path = Return None.
Proof.
  intros Hget Hstatus. unfold DropboxHandler.download_file.
  rewrite Hget. unfold mbind, result_bind. cbn [bind].
  unfold raise_for_status.
  destruct (_ && _) eqn:E; [reflexivity|].
  apply andb_false_iff in E as [E|E]; [apply Z.leb_gt in E|apply Z.ltb_ge in E];
    lia.
Qed.

(** C8, at a link to a file that is no longer there: the server answers
    404, the Dropbox handler returns [None], and the Drive handler, which
    never looks at the status, stores the error page and returns its
    path. *)
Theorem drive_download_ignores_missing_resource :
  raise_for_status inputs.not_found = Raise (OtherException "HTTPError") /\
  DropboxHandler.download_file inputs.missing_resource
    (lit "https://www.dropbox.com/s/gone/notes.txt?dl=0") None
  = Return None /\
  GoogleDriveHandler.download_file inputs.missing_resource
    (lit "https://drive.google.com/file/d/GONE/view?usp=sharing") None
  = Return (Some (lit "/tmp/drive_file_GONE")).
Proof. repeat split; vm_compute; reflexivity. Qed.


(** ** The ingestors: what a returned path stands for *)

Lemma startswith_refl_app p post : startswith (p ++ post) p = true.
Proof. apply startswith_spec. by exists post. Qed.

Lemma endswith_app s p : endswith (s ++ p) p = true.
Proof.
  unfold endswith. rewrite reverse_app. apply startswith_refl_app.
Qed.

(** X18. When [clone_repo] returns a directory, [git clone] has
    succeeded into that directory, on a URL that begins with [http://] or
    [https://], ends in [.git] and has the locator given by the caller
    inside it; the directory is the one the caller named or, without one,
    a fresh [github_repo_] temporary directory. *)
Theorem clone_repo_success env repo_url target_dir dir :
  GitHubRepoHandler.clone_repo env repo_url target_dir = Return (Some dir) ->
  match target_dir with
  | Some named => dir = named
  | None => mkdtemp env (lit "github_repo_") = Return dir
  end /\
  exists url,
    git_clone env url dir = Return tt /\
    startswith url (lit "http://") || startswith url (lit "https://") = true /\
    endswith url (lit ".git") = true /\
    exists pre post, url = pre ++ repo_url ++ post.
Proof.
  unfold GitHubRepoHandler.clone_repo, or_None, try_except.
  unfold mbind, result_bind, fmap, result_fmap.
  set (with_scheme :=
         if negb (startswith repo_url (lit "http://")
                  || startswith repo_url (lit "https://"))
         then lit "https://github.com/" ++ repo_url else repo_url).
  set (url := if negb (endswith with_scheme (lit ".git"))
              then with_scheme ++ lit ".git" else with_scheme).
  assert (startswith with_scheme (lit "http://")
          || startswith with_scheme (lit "https://") = true) as Hscheme.
  { unfold with_scheme.
    destruct (startswith repo_url (lit "http://")
              || startswith repo_url (lit "https://")) eqn:E; [done|].
    cbn [negb]. apply orb_true_iff. right.
    change (lit "https://github.com/") with (lit "https://" ++ lit "github.com/").
    rewrite <- app_assoc. apply startswith_refl_app. }
  assert (exists pre, with_scheme = pre ++ repo_url) as [pre Hpre].
  { unfold with_scheme. destruct (negb _); [by eexists|by exists []]. }
  assert (endswith url (lit ".git") = true /\
          exists post, url = with_scheme ++ post) as [Hgit [post Hpost]].
  { unfold url. destruct (endswith with_scheme (lit ".git")) eqn:E; cbn [negb].
    - split; [done|]. exists []. by rewrite app_nil_r.
    - split; [apply endswith_app|by eexists]. }
  assert (startswith url (lit "http://") || startswith url (lit "https://")
          = true) as Hurl.
  { apply orb_true_iff in Hscheme. apply orb_true_iff.
    rewrite Hpost.
    destruct Hscheme as [H|H]; apply startswith_spec in H as [rest ->];
      [left|right]; rewrite <- app_assoc; apply startswith_refl_app. }
  clearbody url with_scheme.
  destruct target_dir as [named|].
  - cbn [bind]. destruct (git_clone env url named) as [[]|e] eqn:Hclone;
      cbn [bind]; [|done].
    intros [= <-]. split; [done|]. exists url.
    split; [done|]. split; [done|]. split; [done|].
    exists pre, post. by rewrite Hpost, Hpre, <- app_assoc.
  - destruct (mkdtemp env (lit "github_repo_")) as [fresh|e] eqn:Htmp;
      cbn [bind]; [|done].
    destruct (git_clone env url fresh) as [[]|e] eqn:Hclone;
      cbn [bind]; [|done].
    intros [= <-]. split; [done|]. exists url.
    split; [done|]. split; [done|]. split; [done|].
    exists pre, post. by rewrite Hpost, Hpre, <- app_assoc.
Qed.

Lemma clone_repo_success_witness :
  GitHubRepoHandler.clone_repo inputs.reachable (lit "owner/repo") None
  = Return (Some (lit "/tmp/github_repo_0")) /\
  exists url,
    git_clone inputs.reachable url (lit "/tmp/github_repo_0") = Return tt /\
    startswith url (lit "http://") || startswith url (lit "https://") = true /\
    endswith url (lit ".git") = true /\
    exists pre post, url = pre ++ lit "owner/repo" ++ post.
Proof.
  assert (GitHubRepoHandler.clone_repo inputs.reachable (lit "owner/repo") None
          = Return (Some (lit "/tmp/github_repo_0"))) as H
    by (vm_compute; reflexivity).
  split; [exact H|].
  exact (proj2 (clone_repo_success inputs.reachable (lit "owner/repo") None
                  (lit "/tmp/github_repo_0") H)).
Defined.

(** *** Splitting *)

Lemma split_go_nonempty sep s :
  forall skip cur, exists piece rest, split_go sep skip cur s = piece :: rest.
Proof.
  induction s as [|c s IH]; intros skip cur; cbn [split_go]; [by eauto|].
  destruct skip as [|k]; [|apply IH].
  destruct (startswith (c :: s) sep); [by eauto|apply IH].
Qed.

(** A separator that occurs gives at least two pieces. *)
Lemma split_two s sep :
  sep <> [] -> contains s sep = true ->
  exists first second rest, split s sep = first :: second :: rest.
Proof.
  intros Hsep. unfold split. generalize (@nil char) as cur.
  induction s as [|c s IH]; intros cur; cbn [contains split_go].
  - destruct sep; [done|]. cbn. done.
  - destruct (startswith (c :: s) sep) eqn:E.
    + intros _. destruct (split_go_nonempty sep s (length sep - 1) [])
        as (piece & rest & ->). eauto.
    + cbn [orb]. intros H. apply IH. exact H.
Qed.

Lemma index_0 {A} (x : A) xs : index (x :: xs) 0 = Return x.
Proof.
  unfold index. cbn [length]. cbn [Z.ltb Z.compare].
  destruct ((0 <=? 0) && (0 <? Z.of_nat (S (length xs))))%Z eqn:E; [done|].
  apply andb_false_iff in E as [E|E]; [apply Z.leb_gt in E|apply Z.ltb_ge in E];
    lia.
Qed.

Lemma index_1 {A} (x y : A) xs : index (x :: y :: xs) 1 = Return y.
Proof.
  unfold index. cbn [length]. cbn [Z.ltb Z.compare].
  destruct ((0 <=? 1) && (1 <? Z.of_nat (S (S (length xs)))))%Z eqn:E;
    [done|].
  apply andb_false_iff in E as [E|E]; [apply Z.leb_gt in E|apply Z.ltb_ge in E];
    lia.
Qed.

(** A separator that does not occur leaves one piece, the string. *)
Lemma split_go_absent sep s :
  forall cur, contains s sep = false ->
              split_go sep 0 cur s = [reverse cur ++ s].
Proof.
  induction s as [|c s IH]; intros cur; cbn [contains split_go].
  - intros _. by rewrite app_nil_r.
  - intros H. apply orb_false_iff in H as [-> H].
    rewrite IH by done. by rewrite reverse_cons, <- app_assoc.
Qed.

Lemma split_go_skip sep w :
  forall cur post,
    split_go sep (length w) cur (w ++ post) = split_go sep 0 cur post.
Proof.
  induction w as [|c w IH]; intros cur post; [done|].
  cbn [length app split_go]. apply IH.
Qed.

Lemma startswith_app_l a b p :
  (length p <= length a)%nat -> startswith (a ++ b) p = startswith a p.
Proof.
  revert a. induction p as [|c p IH]; intros a Hlen; [by destruct a, b|].
  destruct a as [|d a]; [cbn in Hlen; lia|].
  cbn [app startswith]. rewrite IH; [done|]. cbn in Hlen. lia.
Qed.

(** The first piece ends where the separator first occurs: [init] is
    the separator without its last code point, so an occurrence that
    begins inside [pre] would already fit into [pre ++ init]. *)
Lemma split_go_first sep init l pre post :
  sep = init ++ [l] ->
  contains (pre ++ init) sep = false ->
  forall cur,
    split_go sep 0 cur (pre ++ sep ++ post)
    = (reverse cur ++ pre) :: split_go sep 0 [] post.
Proof.
  intros Hsep. induction pre as [|a pre IH]; intros Habs cur.
  - destruct sep as [|c w]; [by destruct init|].
    cbn [app]. cbn [split_go].
    change (c :: w ++ post) with ((c :: w) ++ post).
    rewrite (startswith_refl_app (c :: w) post).
    cbn [length]. rewrite Nat.sub_succ, Nat.sub_0_r.
    by rewrite split_go_skip, app_nil_r.
  - cbn [app contains] in Habs. apply orb_false_iff in Habs as [Hhere Habs].
    cbn [app]. cbn [split_go].
    assert (startswith (a :: pre ++ sep ++ post) sep = false) as ->.
    { rewrite <- Hhere. rewrite Hsep at 1.
      change (a :: pre ++ (init ++ [l]) ++ post)
        with ((a :: pre) ++ (init ++ [l]) ++ post).
      change (a :: pre ++ init) with ((a :: pre) ++ init).
      rewrite <- (app_assoc init), (app_assoc (a :: pre)).
      apply startswith_app_l.
      rewrite Hsep, !length_app. cbn. lia. }
    rewrite IH by done. by rewrite reverse_cons, <- app_assoc.
Qed.

(** The first piece of a split on one code point [c] is what comes
    before the first [c]. *)
Lemma split_go_until c piece tail :
  c ∉ piece -> tail = [] \/ startswith tail [c] = true ->
  forall cur,
    exists rest, split_go [c] 0 cur (piece ++ tail)
                 = (reverse cur ++ piece) :: rest.
Proof.
  intros Hc Htail. induction piece as [|a piece IH]; intros cur.
  - cbn [app]. rewrite app_nil_r. destruct Htail as [->|Htail].
    + by exists [].
    + destruct tail as [|d tail]; [done|]. cbn [split_go].
      rewrite Htail. by eexists.
  - apply not_elem_of_cons in Hc as [Hne Hc].
    cbn [app]. cbn [split_go startswith].
    replace (c =? a)%N with false by (symmetry; by apply N.eqb_neq).
    cbn [andb]. destruct (IH Hc (a :: cur)) as [rest ->].
    exists rest. by rewrite reverse_cons, <- app_assoc.
Qed.

(** What [text.split(sep)[1].split(c)[0]] is when the separator occurs
    once, followed by [id] and then by nothing or by [c]. *)
Lemma between sep init l c pre id tail :
  sep = init ++ [l] ->
  contains (pre ++ init) sep = false ->
  contains (id ++ tail) sep = false ->
  c ∉ id -> tail = [] \/ startswith tail [c] = true ->
  (rest ← index (split (pre ++ sep ++ id ++ tail) sep) 1;
   index (split rest [c]) 0) = Return id.
Proof.
  intros Hsep Hpre Hrest Hc Htail. unfold split.
  rewrite (split_go_first sep init l pre (id ++ tail) Hsep Hpre).
  rewrite (split_go_absent sep (id ++ tail)) by done.
  rewrite !reverse_nil. cbn [app]. rewrite index_1.
  unfold mbind, result_bind. cbn [bind].
  destruct (split_go_until c id tail Hc Htail []) as [rest' ->].
  apply index_0.
Qed.

(** X19. [extract_file_id] never raises: the two indexings it does are
    always in range. It answers [None] exactly for a URL that holds
    neither [/file/d/] nor [id=]. *)
Theorem extract_file_id_total drive_url :
  exists file_id,
    GoogleDriveHandler.extract_file_id drive_url = Return file_id /\
    (file_id = None <->
     contains drive_url (lit "/file/d/") = false /\
     contains drive_url (lit "id=") = false).
Proof.
  unfold GoogleDriveHandler.extract_file_id.
  assert (forall sep c,
             sep <> [] -> contains drive_url sep = true ->
             exists id,
               (rest ← index (split drive_url sep) 1;
                Some <$> index (split rest [c]) 0) = Return (Some id))
    as Hbranch.
  { intros sep c Hsep Hin.
    destruct (split_two drive_url sep Hsep Hin) as (first & second & rest & ->).
    rewrite index_1. unfold mbind, result_bind. cbn [bind].
    destruct (split_go_nonempty [c] second 0 []) as (piece & rest' & E).
    unfold split. rewrite E, index_0. by eexists. }
  destruct (contains drive_url (lit "/file/d/")) eqn:E1.
  - destruct (Hbranch (lit "/file/d/") 47%N) as [id Hid]; [done|done|].
    change [47%N] with (lit "/") in Hid. rewrite Hid.
    exists (Some id). split; [done|]. split; [done|]. by intros [? _].
  - destruct (contains drive_url (lit "id=")) eqn:E2.
    + destruct (Hbranch (lit "id=") 38%N) as [id Hid]; [done|done|].
      change [38%N] with (lit "&") in Hid. rewrite Hid.
      exists (Some id). split; [done|]. split; [done|]. by intros [_ ?].
    + destruct (contains drive_url (lit "/open?id=")) eqn:E3.
      * (* an URL with [/open?id=] has [id=] *)
        apply contains_spec in E3 as (pre & post & ->).
        assert (contains (pre ++ lit "/open?id=" ++ post) (lit "id=") = true)
          as E; [|congruence].
        apply contains_spec. exists (pre ++ lit "/open?"), post.
        by rewrite <- app_assoc.
      * exists None. done.
Qed.

(** X20. For a sharing link of the form [.../file/d/<id>] or
    [.../file/d/<id>/...], with [/file/d/] occurring only there and no
    slash inside [<id>], [extract_file_id] returns [<id>]. *)
Theorem extract_file_id_file_link pre id tail :
  contains (pre ++ lit "/file/d") (lit "/file/d/") = false ->
  contains (id ++ tail) (lit "/file/d/") = false ->
  47%N ∉ id ->
  tail = [] \/ startswith tail (lit "/") = true ->
  GoogleDriveHandler.extract_file_id (pre ++ lit "/file/d/" ++ id ++ tail)
  = Return (Some id).
Proof.
  intros Hpre Hrest Hid Htail.
  unfold GoogleDriveHandler.extract_file_id.
  assert (contains (pre ++ lit "/file/d/" ++ id ++ tail) (lit "/file/d/")
          = true) as -> by (apply contains_spec; by exists pre, (id ++ tail)).
  pose proof (between (lit "/file/d/") (lit "/file/d") 47%N 47%N pre id tail
                eq_refl Hpre Hrest Hid Htail) as H.
  unfold mbind, result_bind, fmap, result_fmap in *.
  destruct (index _ 1) as [rest|e]; cbn [bind] in *; [|done].
  assert (index (split rest (lit "/")) 0 = Return id) as -> by exact H.
  done.
Qed.

Lemma extract_file_id_file_link_witness :
  GoogleDriveHandler.extract_file_id
    (lit "https://drive.google.com" ++ lit "/file/d/" ++ lit "1AbC_d-9"
     ++ lit "/view?usp=sharing")
  = Return (Some (lit "1AbC_d-9")).
Proof.
  apply (extract_file_id_file_link (lit "https://drive.google.com")
           (lit "1AbC_d-9") (lit "/view?usp=sharing")).
  - vm_compute. reflexivity.
  - vm_compute. reflexivity.
  - apply (bool_decide_unpack _). vm_compute. exact I.
  - right. vm_compute. reflexivity.
Defined.

(** X21. For a link of the form [...id=<id>] or [...id=<id>&...] that
    holds no [/file/d/], with [id=] occurring only there and no ampersand
    inside [<id>], [extract_file_id] returns [<id>]. *)
Theorem extract_file_id_query_link pre id tail :
  contains (pre ++ lit "id=" ++ id ++ tail) (lit "/file/d/") = false ->
  contains (pre ++ lit "id") (lit "id=") = false ->
  contains (id ++ tail) (lit "id=") = false ->
  38%N ∉ id ->
  tail = [] \/ startswith tail (lit "&") = true ->
  GoogleDriveHandler.extract_file_id (pre ++ lit "id=" ++ id ++ tail)
  = Return (Some id).
Proof.
  intros Hfile Hpre Hrest Hid Htail.
  unfold GoogleDriveHandler.extract_file_id. rewrite Hfile.
  assert (contains (pre ++ lit "id=" ++ id ++ tail) (lit "id=") = true)
    as -> by (apply contains_spec; by exists pre, (id ++ tail)).
  pose proof (between (lit "id=") (lit "id") 61%N 38%N pre id tail
                eq_refl Hpre Hrest Hid Htail) as H.
  unfold mbind, result_bind, fmap, result_fmap in *.
  destruct (index _ 1) as [rest|e]; cbn [bind] in *; [|done].
  assert (index (split rest (lit "&")) 0 = Return id) as -> by exact H.
  done.
Qed.

Lemma extract_file_id_query_link_witness :
  GoogleDriveHandler.extract_file_id
    (lit "https://drive.google.com/open?" ++ lit "id=" ++ lit "XYZ_42"
     ++ lit "&usp=drive_link")
  = Return (Some (lit "XYZ_42")).
Proof.
  apply (extract_file_id_query_link (lit "https://drive.google.com/open?")
           (lit "XYZ_42") (lit "&usp=drive_link")).
  - vm_compute. reflexivity.
  - vm_compute. reflexivity.
  - vm_compute. reflexivity.
  - apply (bool_decide_unpack _). vm_compute. exact I.
  - right. vm_compute. reflexivity.
Defined.

(** *** Downloads *)

Lemma confirm_from_get env download_url file_id cookies :
  forall response response',
    GoogleDriveHandler.confirm env download_url file_id cookies response
    = Return response' ->
    response' = response \/
    exists params, http_get env download_url params = Return response'.
Proof.
  induction cookies as [|[key value] cookies IH]; intros response response';
    cbn [GoogleDriveHandler.confirm].
  - intros [= <-]. by left.
  - destruct (startswith key (lit "download_warning")); [|apply IH].
    unfold mbind, result_bind.
    destruct (http_get env download_url _) as [again|e] eqn:Hget;
      cbn [bind]; [|done].
    intros H. apply IH in H as [->|H]; [|by right]. right. eauto.
Qed.



(** X23. When the Drive handler returns a path, the URL held a non-empty
    file id, the direct-download URL for that id was requested, the whole
    body of an answer to it arrived, and its non-empty pieces were written
    to exactly that path, which is the one the caller named if there was
    one. The status of the answer is not among the conditions. *)
Theorem drive_download_success env drive_url output_path path :
  GoogleDriveHandler.download_file env drive_url output_path
  = Return (Some path) ->
  exists file_id params response body,
    GoogleDriveHandler.extract_file_id drive_url = Return (Some file_id) /\
    file_id <> [] /\
    http_get env
      (lit "https://drive.google.com/uc?export=download&id=" ++ file_id)
      params = Return response /\
    iter_content response = Return body /\
    write_file env path
      (List.filter (fun chunk => match chunk with [] => false | _ => true end)
         body) = Return tt /\
    match output_path with
    | Some named => path = named
    | None => exists filename, path = pathlib.div (gettempdir env) filename
    end.
Proof.
  unfold GoogleDriveHandler.download_file, try_except, save_body.
  unfold mbind, result_bind, fmap, result_fmap, mret, result_ret.
  destruct (GoogleDriveHandler.extract_file_id drive_url) as [[file_id|]|e];
    cbn [bind]; [|done..].
  destruct file_id as [|c file_id]; cbn [truthy negb]; [done|].
  set (id := c :: file_id).
  set (download_url :=
         lit "https://drive.google.com/uc?export=download&id=" ++ id).
  destruct (http_get env download_url []) as [first|e] eqn:Hget;
    cbn [bind]; [|done].
  destruct (GoogleDriveHandler.confirm env download_url id (cookies first)
              first) as [response|e] eqn:Hconfirm; cbn [bind]; [|done].
  assert (exists params, http_get env download_url params = Return response)
    as [params Hfrom].
  { apply confirm_from_get in Hconfirm as [->|H]; [by exists []|done]. }
  destruct output_path as [named|]; cbn [bind].
  - destruct (iter_content response) as [body|e] eqn:Hbody; cbn [bind];
      [|done].
    destruct (write_file env named _) as [[]|e] eqn:Hwrite; cbn [bind];
      [|done].
    intros [= <-]. exists id, params, response, body. done.
  - destruct (if contains _ _ then _ else _) as [filename|e]; cbn [bind];
      [|done].
    destruct (iter_content response) as [body|e] eqn:Hbody; cbn [bind];
      [|done].
    destruct (write_file env _ _) as [[]|e] eqn:Hwrite; cbn [bind];
      [|done].
    intros [= <-]. exists id, params, response, body.
    repeat (split; [done|]). by exists filename.
Qed.

Lemma drive_download_success_witness :
  GoogleDriveHandler.download_file inputs.reachable
    (lit "https://drive.google.com/file/d/1AbC/view") None
  = Return (Some (lit "/tmp/notes.txt")) /\
  exists file_id params response body,
    GoogleDriveHandler.extract_file_id
      (lit "https://drive.google.com/file/d/1AbC/view")
    = Return (Some file_id) /\
    file_id <> [] /\
    http_get inputs.reachable
      (lit "https://drive.google.com/uc?export=download&id=" ++ file_id)
      params = Return response /\
    iter_content response = Return body /\
    write_file inputs.reachable (lit "/tmp/notes.txt")
      (List.filter (fun chunk => match chunk with [] => false | _ => true end)
         body) = Return tt /\
    exists filename,
      lit "/tmp/notes.txt" = pathlib.div (gettempdir inputs.reachable) filename.
Proof.
  assert (GoogleDriveHandler.download_file inputs.reachable
            (lit "https://drive.google.com/file/d/1AbC/view") None
          = Return (Some (lit "/tmp/notes.txt"))) as H
    by (vm_compute; reflexivity).
  split; [exact H|].
  exact (drive_download_success inputs.reachable
           (lit "https://drive.google.com/file/d/1AbC/view") None
           (lit "/tmp/notes.txt") H).
Defined.

(** ** Uploads *)

Section uploads.
Context {GitWatcher RAGSystem timestamp : Type}.
Variable rag_index_documents
  : list Document -> RAGSystem -> result unit * RAGSystem.
Variable lib : Backends.
Variable env : upload_handlers.Environment.
Variable cloned from_drive from_dropbox : FileSystem.

(** X24. A run of [process_uploaded_sources] that finishes has issued at
    most one call against the index, an [index_documents], and never a
    [remove_documents]. When it returns, it returns the number of chunks
    gathered: either that is zero and the session is untouched, or the
    one call carried exactly that many chunks, the index accepted them,
    and [last_update] is the time read. When it raises, [last_update] is
    as it was. *)
Theorem process_uploaded_sources_outcome fuel now uploaded_files
  github_url drive_url dropbox_url st tr r st' tr' :
  app.process_uploaded_sources GitWatcher RAGSystem timestamp
    rag_index_documents lib env cloned from_drive from_dropbox
    fuel now uploaded_files github_url drive_url dropbox_url st tr
  = Some (r, st', tr') ->
  app.git_watcher st' = app.git_watcher st /\
  app.processor st' = app.processor st /\
  match r with
  | Return n =>
      n = 0%Z /\ st' = st \/
      exists all_docs,
        all_docs <> [] /\
        n = Z.of_nat (length all_docs) /\
        app.issued st' = app.issued st ++ [app.index_documents all_docs] /\
        rag_index_documents all_docs (app.rag st) = (Return tt, app.rag st') /\
        app.last_update st' = Some now
  | Raise e =>
      app.last_update st' = app.last_update st /\
      (app.issued st' = app.issued st \/
       exists all_docs,
         app.issued st' = app.issued st ++ [app.index_documents all_docs] /\
         fst (rag_index_documents all_docs (app.rag st)) = Raise e)
  end.
Proof.
  unfold app.process_uploaded_sources, app.on_rag, app.set_last_update.
  destruct (app.gather_sources lib env cloned from_drive from_dropbox
              (app.processor st) fuel uploaded_files github_url
              drive_url dropbox_url tr) as [[[all_docs|e] tr1]|]; [| |done].
  - destruct all_docs as [|doc all_docs].
    + intros [= <- <- <-]. split; [done|]. split; [done|]. by left.
    + destruct (rag_index_documents (doc :: all_docs) (app.rag st))
        as [[[]|e] rag'] eqn:Hindex.
      * intros [= <- <- <-]. cbn. split; [done|]. split; [done|]. right.
        exists (doc :: all_docs). by rewrite Hindex.
      * intros [= <- <- <-]. cbn. split; [done|]. split; [done|].
        split; [done|]. right. exists (doc :: all_docs). by rewrite Hindex.
  - intros [= <- <- <-]. split; [done|]. split; [done|]. split; [done|].
    by left.
Qed.

Lemma load_uploads_trace self fuel uploaded_files :
  forall all_docs tr r tr',
    app.load_uploads lib self fuel uploaded_files all_docs tr = Some (r, tr') ->
    tr' = tr /\ exists docs, r = Return (all_docs ++ docs).
Proof.
  induction uploaded_files as [|uploaded_file rest IH];
    intros all_docs tr r tr'; cbn [app.load_uploads].
  - intros [= <- <-]. split; [done|]. exists []. by rewrite app_nil_r.
  - unfold mbind, app.G_bind, app.running.
    destruct (load_uploaded_file _ _ _ _ _) as [docs|]; [|done].
    intros H. apply IH in H as [-> [more ->]]. split; [done|].
    exists (docs ++ more). by rewrite app_assoc.
Qed.

(** X25. When gathering returns, every path that a handler materialized
    has been handed to the clean-up, in the order GitHub, Drive,
    Dropbox, and nothing else has; every handler that was asked and
    returned [None] has had its failure message shown, and nothing else
    was shown. A handler is asked when its URL is given and not empty. *)
Theorem gather_sources_cleans_up self fuel uploaded_files
  github_url drive_url dropbox_url tr all_docs tr' :
  app.gather_sources lib env cloned from_drive from_dropbox
    self fuel uploaded_files github_url drive_url dropbox_url tr
  = Some (Return all_docs, tr') ->
  let github :=
    (fun url => upload_handlers.GitHubRepoHandler.clone_repo env url None)
      <$> app.given github_url in
  let drive :=
    (fun url => upload_handlers.GoogleDriveHandler.download_file env url None)
      <$> app.given drive_url in
  let dropbox :=
    (fun url => upload_handlers.DropboxHandler.download_file env url None)
      <$> app.given dropbox_url in
  app.cleaned tr' =
    app.cleaned tr ++ app.materialized github ++ app.materialized drive
      ++ app.materialized dropbox /\
  app.failed tr' =
    app.failed tr
      ++ app.refused github "Failed to clone GitHub repository"
      ++ app.refused drive "Failed to download from Google Drive"
      ++ app.refused dropbox "Failed to download from Dropbox".
Proof.
  unfold app.gather_sources.
  unfold mbind, app.G_bind, mret, app.G_ret, app.running, app.raising,
    app.cleanup, app.st_error_message.
  intros H.
  match type of H with
  | match ?m with _ => _ end = _ => destruct m as [[r tr1]|] eqn:E; [|done]
  end.
  assert (exists docs0, r = Return docs0 /\ tr1 = tr) as (docs0 & -> & ->).
  { destruct uploaded_files as [[|uploaded_file rest]|].
    - injection E as <- <-. by eexists.
    - apply load_uploads_trace in E as [-> [docs ->]]. by eexists.
    - injection E as <- <-. by eexists. }
  clear E.
  destruct (app.given github_url) as [gh|],
           (app.given drive_url) as [dr|],
           (app.given dropbox_url) as [db|]; cbn [fmap option_fmap option_map];
    cbn beta iota zeta in H;
    repeat
      (match type of H with
       | context [match ?x with _ => _ end] =>
           lazymatch x with
           | context [match _ with _ => _ end] => fail
           | _ => destruct x eqn:?
           end
       end; cbn beta iota zeta in H; cbn [app.cleaned app.failed] in H);
    try discriminate; injection H as <- <-;
    cbn [app.materialized app.refused app.cleaned app.failed];
    rewrite ?app_nil_r, <- ?app_assoc; done.
Qed.

(** X26. The only exception that leaves the gathering is one raised by
    the scan of the cloned repository; the handlers raise nothing and the
    loaders catch what they meet. When it happens, the run stops before
    the clean-up: the temporary directory of the clone is not removed,
    and nothing was cleaned or shown before. *)
Theorem gather_sources_raises_only_from_scan self fuel uploaded_files
  github_url drive_url dropbox_url tr e tr' :
  app.gather_sources lib env cloned from_drive from_dropbox
    self fuel uploaded_files github_url drive_url dropbox_url tr
  = Some (Raise e, tr') ->
  tr' = tr /\
  exists url temp_dir,
    app.given github_url = Some url /\
    upload_handlers.GitHubRepoHandler.clone_repo env url None
    = Return (Some temp_dir) /\
    load_documents_from_directory cloned lib self fuel temp_dir
    = Some (Raise e).
Proof.
  unfold app.gather_sources.
  unfold mbind, app.G_bind, mret, app.G_ret, app.running, app.raising,
    app.cleanup, app.st_error_message.
  intros H.
  match type of H with
  | match ?m with _ => _ end = _ => destruct m as [[r tr1]|] eqn:E; [|done]
  end.
  assert (exists docs0, r = Return docs0 /\ tr1 = tr) as (docs0 & -> & ->).
  { destruct uploaded_files as [[|uploaded_file rest]|].
    - injection E as <- <-. by eexists.
    - apply load_uploads_trace in E as [-> [docs ->]]. by eexists.
    - injection E as <- <-. by eexists. }
  clear E.
  destruct (handlers_never_raise env) as (Hgithub & Hdrive & Hdropbox).
  destruct (app.given github_url) as [gh|],
           (app.given drive_url) as [dr|],
           (app.given dropbox_url) as [db|];
    cbn beta iota zeta in H;
    repeat
      (match type of H with
       | context [match ?x with _ => _ end] =>
           lazymatch x with
           | context [match _ with _ => _ end] => fail
           | _ => destruct x eqn:?
           end
       end; cbn beta iota zeta in H; cbn [app.cleaned app.failed] in H);
    try discriminate; injection H as <- <-;
    try (split; [done|]; by eauto);
    exfalso;
    repeat match goal with
           | Hr : upload_handlers.GitHubRepoHandler.clone_repo env ?u None
                  = Raise _ |- _ =>
               destruct (Hgithub u None) as [? ?]; congruence
           | Hr : upload_handlers.GoogleDriveHandler.download_file env ?u None
                  = Raise _ |- _ =>
               destruct (Hdrive u None) as [? ?]; congruence
           | Hr : upload_handlers.DropboxHandler.download_file env ?u None
                  = Raise _ |- _ =>
               destruct (Hdropbox u None) as [? ?]; congruence
           end.
Qed.

End uploads.

Lemma process_uploaded_sources_outcome_witness :
  app.process_uploaded_sources nat inputs.Index Z inputs.indexDocuments
    inputs.no_backends inputs.reachable
    inputs.report_fs inputs.notes_fs inputs.notes_fs
    7 5%Z (Some [inputs.notes_upload]) None None None
    inputs.synced_session inputs.no_trace
  = Some (Return 7%Z, inputs.uploaded_session, inputs.no_trace) /\
  app.git_watcher inputs.uploaded_session
  = app.git_watcher inputs.synced_session /\
  app.processor inputs.uploaded_session
  = app.processor inputs.synced_session /\
  (7%Z = 0%Z /\ inputs.uploaded_session = inputs.synced_session \/
   exists all_docs,
     all_docs <> [] /\
     7%Z = Z.of_nat (length all_docs) /\
     app.issued inputs.uploaded_session
     = app.issued inputs.synced_session ++ [app.index_documents all_docs] /\
     inputs.indexDocuments all_docs (app.rag inputs.synced_session)
     = (Return tt, app.rag inputs.uploaded_session) /\
     app.last_update inputs.uploaded_session = Some 5%Z).
Proof.
  assert (app.process_uploaded_sources nat inputs.Index Z
            inputs.indexDocuments inputs.no_backends inputs.reachable
            inputs.report_fs inputs.notes_fs inputs.notes_fs
            7 5%Z (Some [inputs.notes_upload]) None None None
            inputs.synced_session inputs.no_trace
          = Some (Return 7%Z, inputs.uploaded_session, inputs.no_trace)) as H
    by (vm_compute; reflexivity).
  split; [exact H|].
  exact (process_uploaded_sources_outcome inputs.indexDocuments
           inputs.no_backends inputs.reachable
           inputs.report_fs inputs.notes_fs inputs.notes_fs
           7 5%Z (Some [inputs.notes_upload]) None None None
           inputs.synced_session inputs.no_trace
           (Return 7%Z) inputs.uploaded_session inputs.no_trace H).
Defined.

Lemma gather_sources_cleans_up_witness :
  app.gather_sources inputs.no_backends inputs.missing_resource
    inputs.report_fs inputs.notes_fs inputs.notes_fs
    (new 12 2) 7 None (Some (lit "owner/repo"))
    (Some (lit "https://drive.google.com/file/d/GONE/view"))
    (Some (lit "https://www.dropbox.com/s/gone/notes.txt?dl=0"))
    inputs.no_trace
  = Some (Return [],
          {| app.cleaned := [lit "/tmp/drive_file_GONE"];
             app.failed := ["Failed to clone GitHub repository";
                            "Failed to download from Dropbox"]%string |}) /\
  [lit "/tmp/drive_file_GONE"]
  = app.cleaned inputs.no_trace
    ++ app.materialized
         (Some (upload_handlers.GitHubRepoHandler.clone_repo
                  inputs.missing_resource (lit "owner/repo") None))
    ++ app.materialized
         (Some (upload_handlers.GoogleDriveHandler.download_file
                  inputs.missing_resource
                  (lit "https://drive.google.com/file/d/GONE/view") None))
    ++ app.materialized
         (Some (upload_handlers.DropboxHandler.download_file
                  inputs.missing_resource
                  (lit "https://www.dropbox.com/s/gone/notes.txt?dl=0")
                  None)).
Proof.
  assert (app.gather_sources inputs.no_backends inputs.missing_resource
            inputs.report_fs inputs.notes_fs inputs.notes_fs
            (new 12 2) 7 None (Some (lit "owner/repo"))
            (Some (lit "https://drive.google.com/file/d/GONE/view"))
            (Some (lit "https://www.dropbox.com/s/gone/notes.txt?dl=0"))
            inputs.no_trace
          = Some (Return [],
                  {| app.cleaned := [lit "/tmp/drive_file_GONE"];
                     app.failed := ["Failed to clone GitHub repository";
                                    "Failed to download from Dropbox"]%string
                  |})) as H by (vm_compute; reflexivity).
  split; [exact H|].
  exact (proj1 (gather_sources_cleans_up inputs.no_backends
                  inputs.missing_resource
                  inputs.report_fs inputs.notes_fs inputs.notes_fs
                  (new 12 2) 7 None (Some (lit "owner/repo"))
                  (Some (lit "https://drive.google.com/file/d/GONE/view"))
                  (Some (lit "https://www.dropbox.com/s/gone/notes.txt?dl=0"))
                  inputs.no_trace _ _ H)).
Defined.

Lemma gather_sources_raises_only_from_scan_witness :
  app.gather_sources inputs.no_backends inputs.reachable
    inputs.unlistable inputs.notes_fs inputs.notes_fs
    (new 12 2) 7 None (Some (lit "owner/repo")) None None inputs.no_trace
  = Some (Raise (OtherException "PermissionError"), inputs.no_trace) /\
  inputs.no_trace = inputs.no_trace /\
  exists url temp_dir,
    app.given (Some (lit "owner/repo")) = Some url /\
    upload_handlers.GitHubRepoHandler.clone_repo inputs.reachable url None
    = Return (Some temp_dir) /\
    load_documents_from_directory inputs.unlistable inputs.no_backends
      (new 12 2) 7 temp_dir
    = Some (Raise (OtherException "PermissionError")).
Proof.
  assert (app.gather_sources inputs.no_backends inputs.reachable
            inputs.unlistable inputs.notes_fs inputs.notes_fs
            (new 12 2) 7 None (Some (lit "owner/repo")) None None
            inputs.no_trace
          = Some (Raise (OtherException "PermissionError"), inputs.no_trace))
    as H by (vm_compute; reflexivity).
  split; [exact H|].
  exact (gather_sources_raises_only_from_scan inputs.no_backends
           inputs.reachable inputs.unlistable inputs.notes_fs inputs.notes_fs
           (new 12 2) 7 None (Some (lit "owner/repo")) None None
           inputs.no_trace _ _ H).
Defined.

